(** * Header parser of workers/image-parser.js

    A shallow embedding of the PNG / JPEG header sniffing code of the
    Worker ([parsePNG], [parseJPEG], [inspectImageBuffer]) together with
    the properties its specification states about it.

    Buffers ([Uint8Array] / [ArrayBuffer]) are lists of bytes, offsets and
    the numbers read from a [DataView] are integers in [Z].  A [DataView]
    read outside the view raises a [RangeError], so every function that
    reads through a view lives in a small completion monad. *)

From Stdlib Require Import ZArith List Lia Bool String Ascii.
From Stdlib Require Import Strings.Byte.
From Stdlib Require Import DecimalString.
Import ListNotations.
Local Open Scope Z_scope.

(** ** Completions: normal return, thrown error, or exhausted loop budget

    The two [while] loops of [parseJPEG] are written with a budget of
    turns; [OutOfFuel] marks a budget that ran out, and the properties
    below show that the budgets the model uses never do. *)

Inductive JsError : Type :=
| RangeError.

Inductive completion (A : Type) : Type :=
| Normal (a : A)
| Throw (e : JsError)
| OutOfFuel.

Arguments Normal {A} a.
Arguments Throw {A} e.
Arguments OutOfFuel {A}.

Definition bind {A B : Type} (c : completion A) (k : A -> completion B)
  : completion B :=
  match c with
  | Normal a => k a
  | Throw e => Throw e
  | OutOfFuel => OutOfFuel
  end.

Notation "x <- c ;; k" := (bind c (fun x => k))
  (at level 61, c at next level, right associativity).

Definition terminates {A : Type} (c : completion A) : Prop :=
  c <> OutOfFuel.

(** ** Typed arrays and data views *)

Definition Uint8Array : Type := list byte.

Definition byteLength (bytes : Uint8Array) : Z := Z.of_nat (List.length bytes).

Definition byteVal (b : byte) : Z := Z.of_N (Byte.to_N b).

(** [bytes[i]] on a typed array: [undefined] (here [None]) out of range. *)
Definition index (bytes : Uint8Array) (i : nat) : option Z :=
  option_map byteVal (nth_error bytes i).

(** The byte stored at offset [off], 0 when there is none. *)
Definition byteAt (view : Uint8Array) (off : Z) : Z :=
  match nth_error view (Z.to_nat off) with
  | Some b => byteVal b
  | None => 0
  end.

(** Big-endian numbers stored at [off]. *)
Definition u16BE (view : Uint8Array) (off : Z) : Z :=
  byteAt view off * 256 + byteAt view (off + 1).

Definition u32BE (view : Uint8Array) (off : Z) : Z :=
  ((byteAt view off * 256 + byteAt view (off + 1)) * 256
   + byteAt view (off + 2)) * 256 + byteAt view (off + 3).

(** [DataView.prototype.getUint8]: a [RangeError] outside the view. *)
Definition getUint8 (view : Uint8Array) (off : Z) : completion Z :=
  if (0 <=? off) && (off + 1 <=? byteLength view)
  then Normal (byteAt view off)
  else Throw RangeError.

(** [DataView.prototype.getUint16(off, false)]: big-endian. *)
Definition getUint16 (view : Uint8Array) (off : Z) : completion Z :=
  if (0 <=? off) && (off + 2 <=? byteLength view)
  then Normal (u16BE view off)
  else Throw RangeError.

(** [DataView.prototype.getUint32(off, false)]: big-endian. *)
Definition getUint32 (view : Uint8Array) (off : Z) : completion Z :=
  if (0 <=? off) && (off + 4 <=? byteLength view)
  then Normal (u32BE view off)
  else Throw RangeError.

Definition readUint16BE (view : Uint8Array) (offset : Z) : completion Z :=
  getUint16 view offset.

Definition readUint32BE (view : Uint8Array) (offset : Z) : completion Z :=
  getUint32 view offset.

(** [String.fromCharCode] on code units below 256. *)
Definition fromCharCode (codes : list Z) : string :=
  string_of_list_ascii (map (fun c => ascii_of_N (Z.to_N c)) codes).

(** ** Results *)

Inductive Format : Type :=
| png
| jpeg
| unknown.

(** The object a detector returns on a match: [{format, width, height}]. *)
Record ParseResult : Type := mkParse {
  p_format : Format;
  p_width : Z;
  p_height : Z
}.

(** The object of the dispatcher: [{format, width, height, size}];
    [null] is [None]. *)
Record InspectionResult : Type := mkInspection {
  format : Format;
  width : option Z;
  height : option Z;
  size : Z
}.

(** ** parsePNG *)

Definition sig : list Z := [137; 80; 78; 71; 13; 10; 26; 10].

(** The signature loop [for (i...) if (bytes[i] !== sig[i]) return null]:
    [true] when some position differs. *)
Fixpoint sigMismatch (bytes : Uint8Array) (s : list Z) (i : nat) : bool :=
  match s with
  | [] => false
  | x :: rest =>
      match index bytes i with
      | Some b => if b =? x then sigMismatch bytes rest (S i) else true
      | None => true
      end
  end.

Definition chunkTypeOffset : Z := 12.

Definition parsePNG (bytes : Uint8Array) : completion (option ParseResult) :=
  if byteLength bytes <? 24 then Normal None
  else if sigMismatch bytes sig 0 then Normal None
  else
    c0 <- getUint8 bytes chunkTypeOffset ;;
    c1 <- getUint8 bytes (chunkTypeOffset + 1) ;;
    c2 <- getUint8 bytes (chunkTypeOffset + 2) ;;
    c3 <- getUint8 bytes (chunkTypeOffset + 3) ;;
    let type := fromCharCode [c0; c1; c2; c3] in
    if negb (String.eqb type "IHDR"%string) then Normal None
    else
      w <- readUint32BE bytes 16 ;;
      h <- readUint32BE bytes 20 ;;
      Normal (Some (mkParse png w h)).

(** ** parseJPEG *)

Definition JPEG_SOF_MARKERS : list Z :=
  [0xC0; 0xC1; 0xC2; 0xC3;
   0xC5; 0xC6; 0xC7;
   0xC9; 0xCA; 0xCB;
   0xCD; 0xCE; 0xCF].

Definition has (s : list Z) (x : Z) : bool := existsb (Z.eqb x) s.

(** The padding loop
    [let marker = getUint8(offset + 1);
     while (marker === 0xFF) { offset++; marker = getUint8(offset + 1); }]
    returning the final [offset] and [marker]. *)
Fixpoint skipPadding (fuel : nat) (view : Uint8Array) (offset : Z)
  : completion (Z * Z) :=
  match fuel with
  | O => OutOfFuel
  | S fuel' =>
      marker <- getUint8 view (offset + 1) ;;
      if marker =? 0xFF then skipPadding fuel' view (offset + 1)
      else Normal (offset, marker)
  end.

(** What one turn of the outer [while] does: go round again from a new
    offset, or leave the function with its return value ([break] leads
    to the [return null] after the loop). *)
Inductive turn : Type :=
| Continue (offset : Z)
| Return (r : option ParseResult).

(** The rest of a turn once the marker is known and [offset += 2] is
    done: the [D9] test, the length field, the SOF payload, the skip. *)
Definition handleMarker (view : Uint8Array) (offset marker : Z)
  : completion turn :=
  if marker =? 0xD9 then Normal (Return None)
  else if offset + 2 >? byteLength view then Normal (Return None)
  else
    segLen <- readUint16BE view offset ;;
    if segLen <? 2 then Normal (Return None)
    else if has JPEG_SOF_MARKERS marker then
      if offset + 5 >=? byteLength view then Normal (Return None)
      else
        precision <- getUint8 view (offset + 2) ;;
        h <- readUint16BE view (offset + 3) ;;
        w <- readUint16BE view (offset + 5) ;;
        Normal (Return (Some (mkParse jpeg w h)))
    else Normal (Continue (offset + segLen)).

Definition scanBody (view : Uint8Array) (offset : Z) : completion turn :=
  b <- getUint8 view offset ;;
  if negb (b =? 0xFF) then Normal (Continue (offset + 1))
  else
    pm <- skipPadding (List.length view) view offset ;;
    let offset := fst pm in
    let marker := snd pm in
    let offset := offset + 2 in
    handleMarker view offset marker.

(** The outer loop [while (offset < view.byteLength) { ... } return null]. *)
Fixpoint scan (fuel : nat) (view : Uint8Array) (offset : Z)
  : completion (option ParseResult) :=
  match fuel with
  | O => OutOfFuel
  | S fuel' =>
      if offset <? byteLength view then
        t <- scanBody view offset ;;
        match t with
        | Continue offset' => scan fuel' view offset'
        | Return r => Normal r
        end
      else Normal None
  end.

Definition parseJPEG (bytes : Uint8Array) : completion (option ParseResult) :=
  if byteLength bytes <? 4 then Normal None
  else
    b0 <- getUint8 bytes 0 ;;
    if negb (b0 =? 0xFF) then Normal None
    else
      b1 <- getUint8 bytes 1 ;;
      if negb (b1 =? 0xD8) then Normal None
      else scan (List.length bytes) bytes 2.

(** ** inspectImageBuffer *)

Definition inspectImageBuffer (bytes : Uint8Array)
  : completion InspectionResult :=
  let size := byteLength bytes in
  p <- parsePNG bytes ;;
  match p with
  | Some p => Normal (mkInspection png (Some (p_width p)) (Some (p_height p)) size)
  | None =>
      j <- parseJPEG bytes ;;
      match j with
      | Some j =>
          Normal (mkInspection jpeg (Some (p_width j)) (Some (p_height j)) size)
      | None => Normal (mkInspection unknown None None size)
      end
  end.

(** ** Specification-side predicates *)

Definition pngSignature : list byte :=
  [x89; x50; x4e; x47; x0d; x0a; x1a; x0a]%byte.

(** The three conditions of the PNG detector's contract. *)
Definition pngHeader (bytes : Uint8Array) : Prop :=
  firstn 8 bytes = pngSignature
  /\ 24 <= byteLength bytes
  /\ byteAt bytes 12 = 73 /\ byteAt bytes 13 = 72
  /\ byteAt bytes 14 = 68 /\ byteAt bytes 15 = 82.

(** The buffer is long enough for the scan and starts with [FF D8]. *)
Definition startsWithSOI (bytes : Uint8Array) : Prop :=
  4 <= byteLength bytes /\ byteAt bytes 0 = 0xFF /\ byteAt bytes 1 = 0xD8.

(** The loop head is reached with cursor [o'] when started with [o]:
    every turn in between asked to go round again. *)
Inductive reaches (view : Uint8Array) : Z -> Z -> Prop :=
| reaches_here : forall o, reaches view o o
| reaches_turn : forall o o' o'',
    o < byteLength view ->
    scanBody view o = Normal (Continue o') ->
    reaches view o' o'' ->
    reaches view o o''.

(** At cursor [o] the turn sees the prefix byte [FF] and, past the
    padding, the marker code [m] right after the last [FF] at [p]. *)
Definition atMarker (view : Uint8Array) (o p m : Z) : Prop :=
  getUint8 view o = Normal 0xFF
  /\ skipPadding (List.length view) view o = Normal (p, m).

(** [fuel] turns are enough to finish the loop from cursor [o]. *)
Definition enough (fuel : nat) (view : Uint8Array) (o : Z) : Prop :=
  Z.max 0 (byteLength view - o) < Z.of_nat fuel.

(** A DHT segment: [FF C4], a two-byte length that counts itself, and
    the bytes it announces. *)
Definition dhtSegment (seg : list byte) : Prop :=
  exists hi lo payload,
    seg = [xff; xc4; hi; lo]%byte ++ payload
    /\ byteVal hi * 256 + byteVal lo = 2 + Z.of_nat (List.length payload).

(** A segment the scan steps over: fill bytes, a marker that is neither
    a SOF code nor [D9], a length that counts itself, and the payload. *)
Definition skippedSegment (seg : list byte) : Prop :=
  exists k m hi lo payload,
    seg = repeat xff k ++ [xff; m; hi; lo]%byte ++ payload
    /\ byteVal m <> 0xFF /\ byteVal m <> 0xD9
    /\ has JPEG_SOF_MARKERS (byteVal m) = false
    /\ byteVal hi * 256 + byteVal lo = 2 + Z.of_nat (List.length payload).

(** A frame header: fill bytes, a SOF marker, the length field, the
    precision and the two dimensions. *)
Definition frameHeader (k : nat) (m hi lo pr h1 h0 w1 w0 : byte) : list byte :=
  repeat xff k ++ [xff; m; hi; lo; pr; h1; h0; w1; w0]%byte.

(** ** Sample buffers *)

(** [FF D8], one byte, and a last [FF]. *)
Definition trailingFF : Uint8Array := [xff; xd8; x00; xff]%byte.

(** A baseline SOF segment cut in the middle of its width field. *)
Definition truncatedSOF : Uint8Array :=
  [xff; xd8; xff; xc0; x00; x0b; x08; x00; x64; x00]%byte.

(** The signature, the chunk length and [IHDR] with 256 x 200. *)
Definition pngScenario : Uint8Array :=
  [x89; x50; x4e; x47; x0d; x0a; x1a; x0a;
   x00; x00; x00; x0d; x49; x48; x44; x52;
   x00; x00; x01; x00; x00; x00; x00; xc8]%byte.

(** [pngScenario] with another chunk-length field. *)
Definition pngOtherLength : Uint8Array :=
  [x89; x50; x4e; x47; x0d; x0a; x1a; x0a;
   xff; xff; xff; xff; x49; x48; x44; x52;
   x00; x00; x01; x00; x00; x00; x00; xc8]%byte.

(** [FF D8], [FF C0] with length 11, precision 8, height 100, width 200. *)
Definition jpegScenario : Uint8Array :=
  [xff; xd8; xff; xc0; x00; x0b; x08; x00; x64; x00; xc8]%byte.

(** The same frame header announcing a length of 2 only. *)
Definition shortSOF : Uint8Array :=
  [xff; xd8; xff; xc0; x00; x02; x08; x00; x64; x00; xc8]%byte.

(** A SOF marker whose length field says 1. *)
Definition badLength : Uint8Array :=
  [xff; xd8; xff; xc0; x00; x01; x08; x00; x64; x00; xc8]%byte.

(** Two DHT segments, of lengths 4 and 2. *)
Definition dhtOnly : list (list byte) :=
  [[xff; xc4; x00; x04; x01; x02]; [xff; xc4; x00; x02]]%byte.

(** * Helpers and callers: index.js, workers/entry.js

    JavaScript strings are modelled by [string]: sequences of code units
    below 256, which is what base64 text, binary strings and the
    literals of the code are made of. *)

(** ** String methods *)

Definition jsLength (s : string) : Z := Z.of_nat (String.length s).

(** [s.indexOf(c)] for a needle of one character: -1 when absent. *)
Fixpoint indexOfFrom (c : ascii) (s : string) (i : Z) : Z :=
  match s with
  | EmptyString => -1
  | String a rest => if Ascii.eqb a c then i else indexOfFrom c rest (i + 1)
  end.

Definition indexOf (s : string) (c : ascii) : Z := indexOfFrom c s 0.

Fixpoint dropChars (n : nat) (s : string) : string :=
  match n, s with
  | O, _ => s
  | S n', String _ rest => dropChars n' rest
  | S _, EmptyString => EmptyString
  end.

(** [s.slice(start)]: a negative [start] counts from the end. *)
Definition slice (s : string) (start : Z) : string :=
  let len := jsLength s in
  let from := if start <? 0 then Z.max (len + start) 0 else Z.min start len in
  dropChars (Z.to_nat from) s.

(** [s.endsWith(suffix)]. *)
Definition endsWith (s suffix : string) : bool :=
  if (String.length suffix <=? String.length s)%nat
  then String.eqb (dropChars (String.length s - String.length suffix) s) suffix
  else false.

(** [s.includes(sub)]. *)
Definition includes (s sub : string) : bool :=
  match String.index 0 sub s with
  | Some _ => true
  | None => false
  end.

(** [c.toLowerCase()] on one code unit below 256: A..Z and the
    capital letters of Latin-1 (C0..DE except D7) move up by 32. *)
Definition lowerChar (c : ascii) : ascii :=
  let n := N_of_ascii c in
  if ((65 <=? n) && (n <=? 90)
      || (192 <=? n) && (n <=? 222) && negb (n =? 215))%N
  then ascii_of_N (n + 32)
  else c.

Fixpoint toLowerCase (s : string) : string :=
  match s with
  | EmptyString => EmptyString
  | String c rest => String (lowerChar c) (toLowerCase rest)
  end.

(** ** index.js: normalizeFormat, base64ByteSize, arrayBufferToBase64DataUri *)

(** [normalizeFormat] on a string argument. *)
Definition normalizeFormat (format : string) : string :=
  if String.eqb format "" then format
  else
    let f := toLowerCase format in
    if String.eqb f "jpeg" || String.eqb f "jpg" then "jpg"%string
    else if String.eqb f "png" then "png"%string
    else f.

(** [base64ByteSize] on a string argument. *)
Definition base64ByteSize (base64 : string) : Z :=
  if String.eqb base64 "" then 0
  else
    let comma := indexOf base64 "," in
    let s := if comma >=? 0 then slice base64 (comma + 1) else base64 in
    if String.eqb s "" then 0
    else
      let padding := if endsWith s "==" then 2
                     else if endsWith s "=" then 1 else 0 in
      (jsLength s * 3) / 4 - padding.

(** [bytes.subarray(b, e)] for [0 <= b <= e]. *)
Definition subarray (bytes : Uint8Array) (b e : Z) : Uint8Array :=
  firstn (Z.to_nat (e - b)) (skipn (Z.to_nat b) bytes).

Definition chunkSize : Z := 0x8000.

(** The loop [for (i = 0; i < bytes.length; i += chunkSize)] that
    appends [String.fromCharCode.apply(null, chunk)] to [binary]. *)
Fixpoint binaryLoop (fuel : nat) (bytes : Uint8Array) (i : Z) (binary : string)
  : option string :=
  match fuel with
  | O => None
  | S fuel' =>
      if i <? byteLength bytes then
        let chunk := subarray bytes i (i + chunkSize) in
        binaryLoop fuel' bytes (i + chunkSize)
                   (binary ++ fromCharCode (map byteVal chunk))
      else Some binary
  end.

(** The payload of a base64 argument: the part after the first comma,
    or the whole string when there is no comma. *)
Definition payloadOf (base64 : string) : string :=
  let comma := indexOf base64 "," in
  if comma >=? 0 then slice base64 (comma + 1) else base64.

(** The bytes of a binary string: [arr[i] = bin.charCodeAt(i)]. *)
Definition bytesOfBinary (bin : string) : Uint8Array :=
  map byte_of_ascii (list_ascii_of_string bin).

(** [n] bytes make [4 * ceil(n / 3)] characters of padded base64, the
    last [(3 - n mod 3) mod 3] of them being [=]. *)
Definition paddedBase64Length (n : Z) (s : string) : Prop :=
  jsLength s = 4 * ((n + 2) / 3)
  /\ (n mod 3 = 0 -> endsWith s "=" = false)
  /\ (n mod 3 = 2 -> endsWith s "=" = true /\ endsWith s "==" = false)
  /\ (n mod 3 = 1 -> endsWith s "==" = true).

Definition noComma (s : string) : Prop := indexOf s "," = -1.

(** ** What is thrown above the parser *)

(** A thrown value is an error object of the host (a [RangeError] of a
    [DataView], the [DOMException] of [atob], the [TypeError] of [fetch])
    or one of the literals [{ status, message }] of workers/entry.js. *)
Inductive Thrown : Type :=
| ThrownError (name message : string)
| ThrownLiteral (status : Z) (message : string).

Inductive outcome (A : Type) : Type :=
| Ok (a : A)
| Raise (t : Thrown)
| Unfinished.

Arguments Ok {A} a.
Arguments Raise {A} t.
Arguments Unfinished {A}.

Definition obind {A B : Type} (c : outcome A) (k : A -> outcome B)
  : outcome B :=
  match c with
  | Ok a => k a
  | Raise t => Raise t
  | Unfinished => Unfinished
  end.

(** The object returned by [inspectFromBase64] and [inspectFromUrl]:
    [{ format, width, height, size, mime }]. *)
Record AssetInfo : Type := mkAsset {
  a_format : Format;
  a_width : option Z;
  a_height : option Z;
  a_size : Z;
  a_mime : option string
}.

(** The functions of the host that the code calls. *)
Section Host.

(** [atob]: [None] when it throws its [InvalidCharacterError]. *)
Variable atob : string -> option string.
Variable btoa : string -> string.
(** The messages the host puts in its error objects. *)
Variable rangeErrorMessage : string.
Variable invalidCharacterMessage : string.

Definition ofCompletion {A : Type} (c : completion A) : outcome A :=
  match c with
  | Normal a => Ok a
  | Throw RangeError => Raise (ThrownError "RangeError" rangeErrorMessage)
  | OutOfFuel => Unfinished
  end.

(** workers/image-parser.js *)
Definition uint8ArrayFromBase64 (base64 : string) : outcome Uint8Array :=
  let comma := indexOf base64 "," in
  let b64 := if comma >=? 0 then slice base64 (comma + 1) else base64 in
  match atob b64 with
  | None => Raise (ThrownError "InvalidCharacterError" invalidCharacterMessage)
  | Some bin => Ok (bytesOfBinary bin)
  end.

(** workers/entry.js *)
Definition inspectFromBase64 (base64 : string) : outcome AssetInfo :=
  obind (uint8ArrayFromBase64 base64) (fun bytes =>
  obind (ofCompletion (inspectImageBuffer bytes)) (fun inspected =>
  Ok (mkAsset
        (match format inspected with
         | unknown => unknown
         | f => f
         end)
        (width inspected)
        (height inspected)
        (size inspected)
        (match format inspected with
         | png => Some "image/png"%string
         | jpeg => Some "image/jpeg"%string
         | unknown => None
         end)))).

(** index.js; [mime] is [None] when the argument is left out. *)
Definition arrayBufferToBase64DataUri (arrayBuffer : Uint8Array)
           (mime : option string) : option string :=
  let mime := match mime with
              | Some m => m
              | None => "application/octet-stream"%string
              end in
  let bytes := arrayBuffer in
  match binaryLoop (S (List.length bytes)) bytes 0 "" with
  | Some binary =>
      let b64 := btoa binary in
      Some ("data:" ++ mime ++ ";base64," ++ b64)%string
  | None => None
  end.

End Host.

(** ** workers/entry.js: requests, responses, the fetch handler *)

(** An error object of the host: its [name] and [message]. *)
Record HostError : Type := mkHostError {
  he_name : string;
  he_message : string
}.

(** A parsed JSON text; [number] is the type of JavaScript numbers. *)
#[warnings="-register-all"] Inductive JSON (number : Type) : Type :=
| JNull
| JBool (b : bool)
| JNumber (n : number)
| JString (s : string)
| JArray (items : list (JSON number))
| JObject (fields : list (string * JSON number)).

Arguments JNull {number}.
Arguments JBool {number} b.
Arguments JNumber {number} n.
Arguments JString {number} s.
Arguments JArray {number} items.
Arguments JObject {number} fields.

(** What the handler reads of a [Request]: its method, its
    [content-type] header ([None] when absent) and what [request.json()]
    gives ([None] when it rejects). *)
Record Request (number : Type) : Type := mkRequest {
  req_method : string;
  req_contentType : option string;
  req_json : option (JSON number)
}.

Arguments req_method {number} r.
Arguments req_contentType {number} r.
Arguments req_json {number} r.

(** What the handler reads of the [Response] of [fetch]. *)
Record FetchResponse : Type := mkFetchResponse {
  resp_ok : bool;
  resp_status : Z;
  resp_statusText : string;
  resp_contentType : option string;
  resp_arrayBuffer : HostError + Uint8Array
}.

(** The three objects the handler serialises. *)
Inductive Body (number : Type) : Type :=
| ErrorBody (error : string)
| InspectBody (result : AssetInfo)
| StatusBody (timestamp requestDurationMs : number) (runtime : string)
             (envBindings : list string).

Arguments ErrorBody {number} error.
Arguments InspectBody {number} result.
Arguments StatusBody {number} timestamp requestDurationMs runtime envBindings.

(** The [ok] field of a body. *)
Definition bodyOk {number : Type} (b : Body number) : bool :=
  match b with
  | ErrorBody _ => false
  | InspectBody _ => true
  | StatusBody _ _ _ _ => true
  end.

Record Response (number : Type) : Type := mkResponse {
  res_status : Z;
  res_body : Body number
}.

Arguments mkResponse {number} res_status res_body.
Arguments res_status {number} r.
Arguments res_body {number} r.

Definition jsonResponse {number : Type} (obj : Body number) (status : Z)
  : Response number :=
  mkResponse status obj.

(** [err.message] and [err.status] of a thrown value. *)
Definition messageOf (t : Thrown) : string :=
  match t with
  | ThrownError _ message => message
  | ThrownLiteral _ message => message
  end.

Definition statusOf (t : Thrown) : option Z :=
  match t with
  | ThrownError _ _ => None
  | ThrownLiteral status _ => Some status
  end.

(** [String(err)]: for an error object with an empty message, its name. *)
Definition stringOfThrown (t : Thrown) : string :=
  match t with
  | ThrownError name message =>
      if String.eqb message "" then name
      else if String.eqb name "" then message
      else (name ++ ": " ++ message)%string
  | ThrownLiteral _ _ => "[object Object]"%string
  end.

(** [String(n)] for an integer. *)
Definition stringOfNumber (n : Z) : string := NilZero.string_of_int (Z.to_int n).

Fixpoint lookupField {number : Type} (key : string)
         (fields : list (string * JSON number)) : option (JSON number) :=
  match fields with
  | [] => None
  | (k, v) :: rest => if String.eqb k key then Some v else lookupField key rest
  end.

Section Worker.

Variable number : Type.
(** A number is truthy unless it is zero. *)
Variable numberTruthy : number -> bool.
Variable atob : string -> option string.
Variable rangeErrorMessage : string.
Variable invalidCharacterMessage : string.
(** [new URL(url)] does not throw. *)
Variable validURL : string -> bool.
Variable fetch : string -> HostError + FetchResponse.
(** [Date.now()] and the rounded duration of the request. *)
Variable timestamp : number.
Variable requestDurationMs : number.

(** A value read from the body: [None] is [undefined]. *)
Definition truthy (v : option (JSON number)) : bool :=
  match v with
  | None => false
  | Some JNull => false
  | Some (JBool b) => b
  | Some (JNumber n) => numberTruthy n
  | Some (JString s) => negb (String.eqb s "")
  | Some (JArray _) => true
  | Some (JObject _) => true
  end.

(** [v.key] on a truthy value: only objects have the keys read here. *)
Definition getProp (v : option (JSON number)) (key : string)
  : option (JSON number) :=
  match v with
  | Some (JObject fields) => lookupField key fields
  | _ => None
  end.

(** [typeof v === "string"], with the string. *)
Definition asString (v : option (JSON number)) : option string :=
  match v with
  | Some (JString s) => Some s
  | _ => None
  end.

Definition parseJsonRequest (request : Request number)
  : outcome (JSON number) :=
  let ct := match req_contentType request with
            | Some h => if String.eqb h "" then ""%string else h
            | None => ""%string
            end in
  if negb (includes ct "application/json")
  then Raise (ThrownLiteral 400 "Content-Type must be application/json")
  else
    match req_json request with
    | None => Raise (ThrownLiteral 400 "Invalid JSON body")
    | Some payload => Ok payload
    end.

Definition inspectFromUrl (url : string) : outcome AssetInfo :=
  if negb (validURL url) then Raise (ThrownLiteral 400 "Invalid URL")
  else
    match fetch url with
    | inl e => Raise (ThrownError (he_name e) (he_message e))
    | inr resp =>
        if negb (resp_ok resp)
        then Raise (ThrownLiteral 400
                      ("Failed to fetch resource: "
                       ++ stringOfNumber (resp_status resp) ++ " "
                       ++ resp_statusText resp))
        else
          match resp_arrayBuffer resp with
          | inl e => Raise (ThrownError (he_name e) (he_message e))
          | inr buffer =>
              obind (ofCompletion rangeErrorMessage (inspectImageBuffer buffer))
                    (fun inspected =>
              let contentType :=
                match resp_contentType resp with
                | Some h => if String.eqb h "" then None else Some h
                | None => None
                end in
              let mime :=
                match format inspected with
                | png => Some "image/png"%string
                | jpeg => Some "image/jpeg"%string
                | unknown => contentType
                end in
              Ok (mkAsset
                    (match format inspected with
                     | unknown => unknown
                     | f => f
                     end)
                    (width inspected)
                    (height inspected)
                    (byteLength buffer)
                    mime))
          end
    end.

(** The [try]/[catch] around the inspection: the result becomes a 200
    response, a thrown value a response with its [status] (400 when it
    has none) and its [message] (or [String(err)]). *)
Definition respondToInspection (result : outcome AssetInfo)
  : outcome (Response number) :=
  match result with
  | Ok result => Ok (jsonResponse (InspectBody result) 200)
  | Raise err =>
      let status := match statusOf err with
                    | Some st => if st =? 0 then 400 else st
                    | None => 400
                    end in
      let message := if negb (String.eqb (messageOf err) "")
                     then messageOf err else stringOfThrown err in
      Ok (jsonResponse (ErrorBody message) status)
  | Unfinished => Unfinished
  end.

(** The branch [method === "inspect_image_asset"] of the handler: the
    test of [params], then [inspectFromUrl] when [params.url] is a
    string and [inspectFromBase64] otherwise. *)
Definition inspectImageAssetBranch (params : option (JSON number))
  : outcome (Response number) :=
  if negb (truthy params)
  then Ok (jsonResponse
             (ErrorBody "inspect_image_asset requires either 'url' or 'base64' param")
             400)
  else
    match asString (getProp params "url"), asString (getProp params "base64") with
    | None, None =>
        Ok (jsonResponse
              (ErrorBody "inspect_image_asset requires either 'url' or 'base64' param")
              400)
    | Some url, _ => respondToInspection (inspectFromUrl url)
    | None, Some base64 =>
        respondToInspection
          (inspectFromBase64 atob rangeErrorMessage invalidCharacterMessage
                             base64)
    end.

(** The body of the outer [try] of [fetch(request, env)]; [env] is the
    list of its keys when it is an object. *)
Definition handlerBody (request : Request number) (env : option (list string))
  : outcome (Response number) :=
  if negb (String.eqb (req_method request) "POST")
  then Ok (jsonResponse (ErrorBody "Only POST requests are allowed") 405)
  else
    match parseJsonRequest request with
    | Raise err =>
        Ok (jsonResponse
              (ErrorBody (if negb (String.eqb (messageOf err) "")
                          then messageOf err else "Invalid request"%string))
              (match statusOf err with
               | Some st => if st =? 0 then 400 else st
               | None => 400
               end))
    | Unfinished => Unfinished
    | Ok body =>
        let body := Some body in
        let method := if truthy body then getProp body "method" else body in
        let params := if truthy body then getProp body "params" else body in
        match (if truthy method then asString method else None) with
        | None =>
            Ok (jsonResponse (ErrorBody "Missing or invalid 'method' field") 400)
        | Some m =>
            if String.eqb m "inspect_image_asset"
            then inspectImageAssetBranch params
            else if String.eqb m "get_system_status"
            then
              let envBindings :=
                match env with
                | Some keys => filter (fun k => negb (String.eqb k "")) keys
                | None => []
                end in
              Ok (jsonResponse
                    (StatusBody timestamp requestDurationMs "Cloudflare Worker"
                                envBindings)
                    200)
            else Ok (jsonResponse (ErrorBody "unknown method") 400)
        end
    end.

(** The default export: the body above inside the outer [try]/[catch]. *)
Definition handlerFetch (request : Request number) (env : option (list string))
  : outcome (Response number) :=
  match handlerBody request env with
  | Raise err =>
      let message := if negb (String.eqb (messageOf err) "")
                     then messageOf err else stringOfThrown err in
      Ok (jsonResponse (ErrorBody ("Internal error: " ++ message)) 500)
  | r => r
  end.

(** A request that the handler routes to the inspection with [params]:
    a POST with a JSON content type whose body is truthy, has the
    method name and has [params] as its [params]. *)
Definition inspectRequest (request : Request number)
           (params : option (JSON number)) : Prop :=
  req_method request = "POST"%string
  /\ (exists ct, req_contentType request = Some ct
                 /\ includes ct "application/json" = true)
  /\ exists body,
       req_json request = Some body
       /\ truthy (Some body) = true
       /\ getProp (Some body) "method" = Some (JString "inspect_image_asset")
       /\ getProp (Some body) "params" = params.

(** The mime type that goes with a format. *)
Definition mimeOfFormat (f : Format) : option string :=
  match f with
  | png => Some "image/png"%string
  | jpeg => Some "image/jpeg"%string
  | unknown => None
  end.

End Worker.

(** ** index.js: inspectImageAsset *)

(** The [data] of a successful result; [format], [width] and [height]
    are null in both shapes, and only the second has [url] and [mime]. *)
Inductive AssetData : Type :=
| FromBase64 (base64 : string) (size : Z)
| FromUrl (url base64 : string) (size : Z) (mime : option string).

(** [ok(data)] and [fail(message)]. *)
Inductive AssetResult : Type :=
| Success (data : AssetData)
| Failure (error : string).

Definition ok (data : AssetData) : AssetResult := Success data.

Definition fail (message : string) : AssetResult := Failure message.

Section Library.

Variable number : Type.
Variable numberTruthy : number -> bool.
Variable btoa : string -> string.
(** [typeof fetch === "function"]. *)
Variable fetchAvailable : bool.
Variable fetch : string -> HostError + FetchResponse.

(** The [catch] of the url branch. *)
Definition fetchFailure (e : HostError) : AssetResult :=
  let err := ThrownError (he_name e) (he_message e) in
  fail ("Failed to fetch or read URL: "
        ++ (if negb (String.eqb (messageOf err) "")
            then messageOf err else stringOfThrown err)).

Definition inspectImageAsset (params : option (JSON number))
  : outcome AssetResult :=
  if negb (truthy number numberTruthy params)
     || (match asString number (getProp number params "url") with
         | Some _ => false
         | None => true
         end
         && match asString number (getProp number params "base64") with
            | Some _ => false
            | None => true
            end)
  then Raise (ThrownError "Error"
                "inspectImageAsset requires either params.url (string) or params.base64 (string).")
  else
    match asString number (getProp number params "base64") with
    | Some b64 =>
        let size := base64ByteSize b64 in
        Ok (ok (FromBase64 b64 size))
    | None =>
        match asString number (getProp number params "url") with
        | Some url =>
            if negb fetchAvailable
            then Ok (fail "fetch() is unavailable in this environment. In Node, reintroduce a fetch polyfill or fetch externally.")
            else
              match fetch url with
              | inl e => Ok (fetchFailure e)
              | inr resp =>
                  if negb (resp_ok resp)
                  then Ok (fail ("Failed to fetch URL: "
                                 ++ stringOfNumber (resp_status resp) ++ " "
                                 ++ resp_statusText resp))
                  else
                    match resp_arrayBuffer resp with
                    | inl e => Ok (fetchFailure e)
                    | inr arrayBuffer =>
                        let contentType :=
                          match resp_contentType resp with
                          | Some h => if String.eqb h "" then None else Some h
                          | None => None
                          end in
                        match arrayBufferToBase64DataUri btoa arrayBuffer
                                (Some (match contentType with
                                       | Some c => c
                                       | None => "application/octet-stream"%string
                                       end)) with
                        | Some dataUri =>
                            let size := byteLength arrayBuffer in
                            Ok (ok (FromUrl url dataUri size contentType))
                        | None => Unfinished
                        end
                    end
              end
        | None => Ok (fail "Invalid parameters for inspectImageAsset")
        end
    end.

End Library.

(** The host functions at the values the examples use: ["SGk="] is the
    base64 text of the two bytes of ["Hi"], ["/9gA/w=="] the text of
    [FF D8 00 FF]. *)
Definition sampleAtob (s : string) : option string :=
  if String.eqb s "SGk=" then Some "Hi"%string
  else if String.eqb s "/9gA/w==" then Some (fromCharCode [255; 216; 0; 255])
  else None.

Definition sampleBtoa (s : string) : string :=
  if String.eqb s "Hi" then "SGk="%string
  else if String.eqb s (fromCharCode [255; 216; 0; 255]) then "/9gA/w=="%string
  else ""%string.

Definition sampleFetch (url : string) : HostError + FetchResponse :=
  if String.eqb url "https://example.com/a.png"
  then inr (mkFetchResponse true 200 "OK" (Some "text/plain"%string)
                            (inr pngScenario))
  else if String.eqb url "https://example.com/hi.txt"
  then inr (mkFetchResponse true 200 "OK" (Some "text/plain"%string)
                            (inr [x48; x69]%byte))
  else inl (mkHostError "TypeError" "fetch failed").

(** [{ method: "inspect_image_asset", params: { base64 } }]. *)
Definition base64Request (base64 : string) : Request Z :=
  mkRequest Z "POST" (Some "application/json; charset=utf-8"%string)
            (Some (JObject [("method"%string, JString "inspect_image_asset");
                            ("params"%string,
                             JObject [("base64"%string, JString base64)])])).

(** [{ method: "inspect_image_asset", params: { url, base64 } }]. *)
Definition urlRequest (url base64 : string) : Request Z :=
  mkRequest Z "POST" (Some "application/json"%string)
            (Some (JObject [("method"%string, JString "inspect_image_asset");
                            ("params"%string,
                             JObject [("url"%string, JString url);
                                      ("base64"%string, JString base64)])])).

Definition sampleTruthy (n : Z) : bool := negb (n =? 0).

(** * Properties *)

(** ** Bytes and views *)

Lemma byteVal_range (b : byte) : 0 <= byteVal b < 256.
Proof.
  unfold byteVal. pose proof (Byte.to_N_bounded b) as H. lia.
Qed.

Lemma byteVal_inj (a b : byte) : byteVal a = byteVal b -> a = b.
Proof.
  unfold byteVal. intros H. apply N2Z.inj in H.
  pose proof (Byte.of_to_N a) as Ha. rewrite H, Byte.of_to_N in Ha.
  congruence.
Qed.

Lemma byteAt_range (view : Uint8Array) (off : Z) : 0 <= byteAt view off < 256.
Proof.
  unfold byteAt. destruct (nth_error view (Z.to_nat off)).
  - apply byteVal_range.
  - lia.
Qed.

Lemma byteLength_nonneg (view : Uint8Array) : 0 <= byteLength view.
Proof. unfold byteLength. lia. Qed.

Lemma byteLength_app (a b : Uint8Array) :
  byteLength (a ++ b) = byteLength a + byteLength b.
Proof. unfold byteLength. rewrite length_app. lia. Qed.

Lemma byteAt_app_r (a b : Uint8Array) (k : Z) :
  0 <= k -> byteAt (a ++ b) (byteLength a + k) = byteAt b k.
Proof.
  intros Hk. unfold byteAt, byteLength.
  rewrite nth_error_app2 by lia.
  replace (Z.to_nat (Z.of_nat (List.length a) + k) - List.length a)%nat
    with (Z.to_nat k) by lia.
  reflexivity.
Qed.

Lemma byteAt_app_l (a b : Uint8Array) (k : Z) :
  0 <= k < byteLength a -> byteAt (a ++ b) k = byteAt a k.
Proof.
  intros Hk. unfold byteAt, byteLength in *.
  rewrite nth_error_app1 by lia. reflexivity.
Qed.

Lemma getUint8_in (view : Uint8Array) (off : Z) :
  0 <= off < byteLength view -> getUint8 view off = Normal (byteAt view off).
Proof.
  intros H. unfold getUint8.
  destruct (Z.leb_spec 0 off); [|lia].
  destruct (Z.leb_spec (off + 1) (byteLength view)); [|lia].
  reflexivity.
Qed.

Lemma getUint8_out (view : Uint8Array) (off : Z) :
  byteLength view <= off -> getUint8 view off = Throw RangeError.
Proof.
  intros H. unfold getUint8.
  destruct (Z.leb_spec (off + 1) (byteLength view)); [lia|].
  rewrite andb_false_r. reflexivity.
Qed.

Lemma getUint8_Normal (view : Uint8Array) (off v : Z) :
  getUint8 view off = Normal v ->
  0 <= off < byteLength view /\ v = byteAt view off.
Proof.
  unfold getUint8.
  destruct (Z.leb_spec 0 off); destruct (Z.leb_spec (off + 1) (byteLength view));
    simpl; intros E; inversion E; subst; split; try lia; reflexivity.
Qed.

Lemma getUint8_terminates (view : Uint8Array) (off : Z) :
  getUint8 view off <> OutOfFuel.
Proof.
  unfold getUint8. destruct (_ && _); discriminate.
Qed.

Lemma getUint16_in (view : Uint8Array) (off : Z) :
  0 <= off -> off + 2 <= byteLength view ->
  getUint16 view off = Normal (u16BE view off).
Proof.
  intros H0 H1. unfold getUint16.
  destruct (Z.leb_spec 0 off); [|lia].
  destruct (Z.leb_spec (off + 2) (byteLength view)); [|lia].
  reflexivity.
Qed.

Lemma getUint16_out (view : Uint8Array) (off : Z) :
  byteLength view < off + 2 -> getUint16 view off = Throw RangeError.
Proof.
  intros H. unfold getUint16.
  destruct (Z.leb_spec (off + 2) (byteLength view)); [lia|].
  rewrite andb_false_r. reflexivity.
Qed.

Lemma getUint16_terminates (view : Uint8Array) (off : Z) :
  getUint16 view off <> OutOfFuel.
Proof.
  unfold getUint16. destruct (_ && _); discriminate.
Qed.

Lemma getUint32_in (view : Uint8Array) (off : Z) :
  0 <= off -> off + 4 <= byteLength view ->
  getUint32 view off = Normal (u32BE view off).
Proof.
  intros H0 H1. unfold getUint32.
  destruct (Z.leb_spec 0 off); [|lia].
  destruct (Z.leb_spec (off + 4) (byteLength view)); [|lia].
  reflexivity.
Qed.

Lemma u16BE_range (view : Uint8Array) (off : Z) : 0 <= u16BE view off < 65536.
Proof.
  unfold u16BE.
  pose proof (byteAt_range view off). pose proof (byteAt_range view (off + 1)).
  lia.
Qed.

(** ** The PNG detector *)

Lemma sigMismatch_spec (bytes : Uint8Array) :
  sigMismatch bytes sig 0 = false <-> firstn 8 bytes = pngSignature.
Proof.
  split.
  - intros H. unfold sig, index in H.
    do 8 (destruct bytes as [|? bytes];
          [ cbn [sigMismatch index nth_error option_map] in H;
            repeat match type of H with
                   | (if ?a =? ?b then _ else _) = _ =>
                       destruct (Z.eqb_spec a b); [|discriminate H]
                   end;
            discriminate H |]).
    cbn [sigMismatch index nth_error option_map] in H.
    repeat match type of H with
           | (if ?a =? ?b then _ else _) = _ =>
               destruct (Z.eqb_spec a b); [|discriminate H]
           end.
    repeat match goal with
           | E : byteVal ?b = ?n |- _ =>
               let x := eval vm_compute in (Byte.of_N (Z.to_N n)) in
               match x with
               | Some ?c => apply (byteVal_inj b c) in E; subst b
               end
           end.
    reflexivity.
  - intros H. rewrite <- (firstn_skipn 8 bytes), H. reflexivity.
Qed.

Lemma charCode_inj (c : Z) (n : N) :
  0 <= c < 256 -> (n < 256)%N ->
  ascii_of_N (Z.to_N c) = ascii_of_N n -> c = Z.of_N n.
Proof.
  intros Hc Hn H.
  apply (f_equal N_of_ascii) in H.
  rewrite !N_ascii_embedding in H by lia. lia.
Qed.

Lemma ihdr_spec (c0 c1 c2 c3 : Z) :
  0 <= c0 < 256 -> 0 <= c1 < 256 -> 0 <= c2 < 256 -> 0 <= c3 < 256 ->
  (String.eqb (fromCharCode [c0; c1; c2; c3]) "IHDR" = true
   <-> c0 = 73 /\ c1 = 72 /\ c2 = 68 /\ c3 = 82).
Proof.
  intros H0 H1 H2 H3. rewrite String.eqb_eq. unfold fromCharCode. simpl.
  split.
  - intros H. injection H as E0 E1 E2 E3.
    apply (charCode_inj c0 73) in E0; [|lia|reflexivity].
    apply (charCode_inj c1 72) in E1; [|lia|reflexivity].
    apply (charCode_inj c2 68) in E2; [|lia|reflexivity].
    apply (charCode_inj c3 82) in E3; [|lia|reflexivity].
    simpl in *. auto.
  - intros (-> & -> & -> & ->). reflexivity.
Qed.

(** [parsePNG] past its length test, with the view reads resolved. *)
Lemma parsePNG_long (bytes : Uint8Array) :
  24 <= byteLength bytes ->
  parsePNG bytes =
    if sigMismatch bytes sig 0 then Normal None
    else if negb (String.eqb (fromCharCode [byteAt bytes 12; byteAt bytes 13;
                                             byteAt bytes 14; byteAt bytes 15])
                             "IHDR")
         then Normal None
         else Normal (Some (mkParse png (u32BE bytes 16) (u32BE bytes 20))).
Proof.
  intros Hlen. unfold parsePNG, chunkTypeOffset, readUint32BE.
  destruct (Z.ltb_spec (byteLength bytes) 24); [lia|].
  destruct (sigMismatch bytes sig 0); [reflexivity|].
  rewrite !getUint8_in by lia. cbn [bind].
  change (12 + 1) with 13. change (12 + 2) with 14. change (12 + 3) with 15.
  destruct (negb _); [reflexivity|].
  rewrite !getUint32_in by lia. reflexivity.
Qed.

Lemma parsePNG_short (bytes : Uint8Array) :
  byteLength bytes < 24 -> parsePNG bytes = Normal None.
Proof.
  intros Hlen. unfold parsePNG.
  destruct (Z.ltb_spec (byteLength bytes) 24); [reflexivity|lia].
Qed.

Lemma parsePNG_match (bytes : Uint8Array) :
  pngHeader bytes ->
  parsePNG bytes = Normal (Some (mkParse png (u32BE bytes 16) (u32BE bytes 20))).
Proof.
  intros (Hsig & Hlen & H12 & H13 & H14 & H15).
  rewrite parsePNG_long by assumption.
  apply sigMismatch_spec in Hsig. rewrite Hsig.
  rewrite H12, H13, H14, H15. reflexivity.
Qed.

Lemma parsePNG_no_match (bytes : Uint8Array) :
  ~ pngHeader bytes -> parsePNG bytes = Normal None.
Proof.
  intros Hno.
  destruct (Z.ltb_spec (byteLength bytes) 24) as [Hlen|Hlen].
  - apply parsePNG_short. assumption.
  - rewrite parsePNG_long by assumption.
    destruct (sigMismatch bytes sig 0) eqn:Hsig; [reflexivity|].
    destruct (String.eqb _ _) eqn:Htype; [|reflexivity].
    exfalso. apply Hno.
    apply sigMismatch_spec in Hsig.
    apply ihdr_spec in Htype; try apply byteAt_range.
    unfold pngHeader. tauto.
Qed.

Lemma parsePNG_Some (bytes : Uint8Array) (d : ParseResult) :
  parsePNG bytes = Normal (Some d) ->
  pngHeader bytes /\ d = mkParse png (u32BE bytes 16) (u32BE bytes 20).
Proof.
  intros H.
  destruct (Z.ltb_spec (byteLength bytes) 24) as [Hlen|Hlen].
  - rewrite parsePNG_short in H by assumption. discriminate.
  - rewrite parsePNG_long in H by assumption.
    destruct (sigMismatch bytes sig 0) eqn:Hsig; [discriminate|].
    destruct (String.eqb _ _) eqn:Htype; [|discriminate].
    simpl in H. inversion H; subst. split; [|reflexivity].
    apply sigMismatch_spec in Hsig.
    apply ihdr_spec in Htype; try apply byteAt_range.
    unfold pngHeader. tauto.
Qed.

(** [parsePNG] reads inside the view only: it always returns. *)
Lemma parsePNG_returns (bytes : Uint8Array) :
  parsePNG bytes = Normal None
  \/ parsePNG bytes = Normal (Some (mkParse png (u32BE bytes 16) (u32BE bytes 20))).
Proof.
  destruct (Z.ltb_spec (byteLength bytes) 24) as [Hlen|Hlen].
  - left. apply parsePNG_short. assumption.
  - rewrite parsePNG_long by assumption.
    destruct (sigMismatch bytes sig 0); [left; reflexivity|].
    destruct (negb _); [left|right]; reflexivity.
Qed.

(** ** The padding loop *)

Lemma skipPadding_Normal (fuel : nat) (view : Uint8Array) (o p m : Z) :
  skipPadding fuel view o = Normal (p, m) ->
  o <= p /\ 0 <= p + 1 < byteLength view
  /\ m = byteAt view (p + 1) /\ m <> 0xFF.
Proof.
  revert o. induction fuel as [|fuel IH]; intros o H; [discriminate|].
  cbn [skipPadding] in H.
  destruct (getUint8 view (o + 1)) as [mk| |] eqn:Hget; try discriminate.
  cbn [bind] in H. apply getUint8_Normal in Hget. destruct Hget as [Hin ->].
  destruct (Z.eqb_spec (byteAt view (o + 1)) 255) as [E|E].
  - apply IH in H. lia.
  - inversion H; subst. repeat split; lia.
Qed.

Lemma skipPadding_terminates (fuel : nat) (view : Uint8Array) (o : Z) :
  (0 < fuel)%nat -> byteLength view - o <= Z.of_nat fuel ->
  skipPadding fuel view o <> OutOfFuel.
Proof.
  revert o. induction fuel as [|fuel IH]; intros o Hpos Hfuel; [lia|].
  cbn [skipPadding].
  destruct (getUint8 view (o + 1)) as [mk| |] eqn:Hget; cbn [bind].
  - apply getUint8_Normal in Hget. destruct Hget as [Hin ->].
    destruct (byteAt view (o + 1) =? 255); [|discriminate].
    apply IH; lia.
  - discriminate.
  - exfalso. revert Hget. apply getUint8_terminates.
Qed.


(** A run of [FF] bytes from [o] to [p] followed by another byte: the
    loop stops on the last [FF] with that byte as marker. *)
Lemma skipPadding_run (view : Uint8Array) (n fuel : nat) (o p : Z) :
  Z.of_nat n = p - o -> (n < fuel)%nat -> 0 <= o + 1 ->
  (forall i, o < i <= p -> byteAt view i = 0xFF) ->
  p + 1 < byteLength view -> byteAt view (p + 1) <> 0xFF ->
  skipPadding fuel view o = Normal (p, byteAt view (p + 1)).
Proof.
  revert fuel o.
  induction n as [|n IH]; intros fuel o Hn Hfuel Ho Hrun Hp Hm;
    (destruct fuel as [|fuel]; [lia|]); cbn [skipPadding];
    rewrite getUint8_in by lia; cbn [bind].
  - replace o with p by lia.
    destruct (Z.eqb_spec (byteAt view (p + 1)) 255); [contradiction|].
    reflexivity.
  - rewrite (Hrun (o + 1)) by lia. cbn [Z.eqb Pos.eqb].
    apply IH; try lia. intros i Hi. apply Hrun. lia.
Qed.

Lemma atMarker_run (view : Uint8Array) (o p : Z) :
  0 <= o <= p -> p + 1 < byteLength view ->
  (forall i, o <= i <= p -> byteAt view i = 0xFF) ->
  byteAt view (p + 1) <> 0xFF ->
  atMarker view o p (byteAt view (p + 1)).
Proof.
  intros Ho Hp Hrun Hm. split.
  - rewrite getUint8_in, (Hrun o) by lia. reflexivity.
  - apply (skipPadding_run view (Z.to_nat (p - o))); try assumption; try lia.
    + unfold byteLength in Hp. lia.
    + intros i Hi. apply Hrun. lia.
Qed.

Lemma atMarker_inv (view : Uint8Array) (o p m : Z) :
  atMarker view o p m ->
  0 <= o < byteLength view /\ byteAt view o = 0xFF
  /\ o <= p /\ p + 1 < byteLength view
  /\ m = byteAt view (p + 1) /\ m <> 0xFF.
Proof.
  intros [Hff Hpad].
  apply getUint8_Normal in Hff. apply skipPadding_Normal in Hpad.
  intuition lia.
Qed.

(** ** One turn of the scan *)

Lemma handleMarker_terminates (view : Uint8Array) (offset marker : Z) :
  handleMarker view offset marker <> OutOfFuel.
Proof.
  unfold handleMarker, readUint16BE.
  destruct (marker =? 217); [discriminate|].
  destruct (offset + 2 >? byteLength view); [discriminate|].
  destruct (getUint16 view offset) as [segLen| |] eqn:Hlen; cbn [bind];
    [|discriminate|exfalso; revert Hlen; apply getUint16_terminates].
  destruct (segLen <? 2); [discriminate|].
  destruct (has JPEG_SOF_MARKERS marker); [|discriminate].
  destruct (offset + 5 >=? byteLength view); [discriminate|].
  destruct (getUint8 view (offset + 2)) as [pr| |] eqn:Hpr; cbn [bind];
    [|discriminate|exfalso; revert Hpr; apply getUint8_terminates].
  destruct (getUint16 view (offset + 3)) as [h| |] eqn:Hh; cbn [bind];
    [|discriminate|exfalso; revert Hh; apply getUint16_terminates].
  destruct (getUint16 view (offset + 5)) as [w| |] eqn:Hw; cbn [bind];
    [discriminate|discriminate|exfalso; revert Hw; apply getUint16_terminates].
Qed.

Lemma scanBody_terminates (view : Uint8Array) (o : Z) :
  scanBody view o <> OutOfFuel.
Proof.
  unfold scanBody.
  destruct (getUint8 view o) as [b| |] eqn:Hget; cbn [bind];
    [|discriminate|exfalso; revert Hget; apply getUint8_terminates].
  apply getUint8_Normal in Hget. destruct Hget as [Hin ->].
  destruct (negb _); [discriminate|].
  destruct (skipPadding (List.length view) view o) as [pm| |] eqn:Hpad;
    cbn [bind]; [apply handleMarker_terminates|discriminate|].
  exfalso. revert Hpad. apply skipPadding_terminates.
  - unfold byteLength in Hin. lia.
  - unfold byteLength in *. lia.
Qed.

Lemma scanBody_not_FF (view : Uint8Array) (o : Z) :
  0 <= o < byteLength view -> byteAt view o <> 0xFF ->
  scanBody view o = Normal (Continue (o + 1)).
Proof.
  intros Hin Hb. unfold scanBody. rewrite getUint8_in by assumption.
  cbn [bind]. destruct (Z.eqb_spec (byteAt view o) 255); [contradiction|].
  reflexivity.
Qed.

Lemma scanBody_marker (view : Uint8Array) (o p m : Z) :
  atMarker view o p m -> scanBody view o = handleMarker view (p + 2) m.
Proof.
  intros [Hff Hpad]. unfold scanBody. rewrite Hff. cbn [bind].
  rewrite Hpad. reflexivity.
Qed.

(** A turn that goes round again moved the cursor forward: by one on a
    byte that is not [FF], else past the padding, the two marker bytes
    and a segment of at least two bytes. *)
Lemma scanBody_Continue (view : Uint8Array) (o o' : Z) :
  scanBody view o = Normal (Continue o') ->
  (byteAt view o <> 0xFF /\ o' = o + 1)
  \/ (byteAt view o = 0xFF /\
      exists p m segLen,
        atMarker view o p m /\ o <= p
        /\ m <> 0xD9 /\ has JPEG_SOF_MARKERS m = false
        /\ segLen = u16BE view (p + 2) /\ 2 <= segLen
        /\ o' = p + 2 + segLen).
Proof.
  intros H. unfold scanBody in H.
  destruct (getUint8 view o) as [b| |] eqn:Hget; try discriminate.
  cbn [bind] in H. pose proof Hget as Hget'.
  apply getUint8_Normal in Hget'. destruct Hget' as [Hin ->].
  destruct (Z.eqb_spec (byteAt view o) 255) as [E|E]; cbn [negb] in H.
  - right. split; [assumption|].
    destruct (skipPadding (List.length view) view o) as [[p m]| |] eqn:Hpad;
      try discriminate.
    cbn [bind fst snd] in H. exists p, m, (u16BE view (p + 2)).
    assert (Hat : atMarker view o p m).
    { split; [rewrite Hget, E; reflexivity|assumption]. }
    pose proof (atMarker_inv _ _ _ _ Hat) as (_ & _ & Hle & Hp & _).
    unfold handleMarker, readUint16BE in H.
    destruct (Z.eqb_spec m 217); [discriminate|].
    destruct (Z.gtb_spec (p + 2 + 2) (byteLength view)); [discriminate|].
    rewrite getUint16_in in H by lia. cbn [bind] in H.
    destruct (Z.ltb_spec (u16BE view (p + 2)) 2); [discriminate|].
    destruct (has JPEG_SOF_MARKERS m).
    + destruct (p + 2 + 5 >=? byteLength view); [discriminate|].
      destruct (getUint8 view (p + 2 + 2)); try discriminate.
      destruct (getUint16 view (p + 2 + 3)); try discriminate.
      destruct (getUint16 view (p + 2 + 5)); discriminate.
    + inversion H. split; [exact Hat|].
      repeat split; try assumption; try reflexivity; lia.
  - left. inversion H. split; [assumption|reflexivity].
Qed.

Lemma scanBody_advances (view : Uint8Array) (o o' : Z) :
  scanBody view o = Normal (Continue o') -> o < o'.
Proof.
  intros H. apply scanBody_Continue in H.
  destruct H as [[_ ->]|(_ & p & m & segLen & _ & Hle & _ & _ & _ & Hseg & ->)];
    lia.
Qed.

Lemma has_SOF_not_EOI (m : Z) : has JPEG_SOF_MARKERS m = true -> m <> 0xD9.
Proof. intros H ->. discriminate H. Qed.

Lemma handleMarker_EOI (view : Uint8Array) (offset : Z) :
  handleMarker view offset 0xD9 = Normal (Return None).
Proof. reflexivity. Qed.

Lemma handleMarker_no_length (view : Uint8Array) (offset m : Z) :
  byteLength view < offset + 2 ->
  handleMarker view offset m = Normal (Return None).
Proof.
  intros H. unfold handleMarker.
  destruct (m =? 217); [reflexivity|].
  destruct (Z.gtb_spec (offset + 2) (byteLength view)); [reflexivity|lia].
Qed.

Lemma handleMarker_length (view : Uint8Array) (offset m : Z) :
  m <> 0xD9 -> 0 <= offset -> offset + 2 <= byteLength view ->
  handleMarker view offset m =
    let segLen := u16BE view offset in
    if segLen <? 2 then Normal (Return None)
    else if has JPEG_SOF_MARKERS m then
      if offset + 5 >=? byteLength view then Normal (Return None)
      else
        precision <- getUint8 view (offset + 2) ;;
        h <- readUint16BE view (offset + 3) ;;
        w <- readUint16BE view (offset + 5) ;;
        Normal (Return (Some (mkParse jpeg w h)))
    else Normal (Continue (offset + segLen)).
Proof.
  intros Hm H0 Hlen. unfold handleMarker, readUint16BE.
  destruct (Z.eqb_spec m 217); [contradiction|].
  destruct (Z.gtb_spec (offset + 2) (byteLength view)); [lia|].
  rewrite getUint16_in by lia. reflexivity.
Qed.

Lemma handleMarker_bad_length (view : Uint8Array) (offset m : Z) :
  m <> 0xD9 -> 0 <= offset -> offset + 2 <= byteLength view ->
  u16BE view offset < 2 ->
  handleMarker view offset m = Normal (Return None).
Proof.
  intros Hm H0 Hlen Hseg. rewrite handleMarker_length by assumption.
  cbv zeta. destruct (Z.ltb_spec (u16BE view offset) 2); [reflexivity|lia].
Qed.

Lemma handleMarker_SOF (view : Uint8Array) (offset m : Z) :
  has JPEG_SOF_MARKERS m = true ->
  0 <= offset -> 2 <= u16BE view offset -> offset + 7 <= byteLength view ->
  handleMarker view offset m
  = Normal (Return (Some (mkParse jpeg (u16BE view (offset + 5))
                                       (u16BE view (offset + 3))))).
Proof.
  intros Hsof H0 Hseg Hlen.
  rewrite handleMarker_length by (try apply has_SOF_not_EOI; auto; lia).
  cbv zeta. destruct (Z.ltb_spec (u16BE view offset) 2); [lia|].
  rewrite Hsof.
  destruct (Z.geb_spec (offset + 5) (byteLength view)); [lia|].
  unfold readUint16BE.
  rewrite getUint8_in, !getUint16_in by lia. reflexivity.
Qed.

Lemma handleMarker_SOF_short (view : Uint8Array) (offset m : Z) :
  has JPEG_SOF_MARKERS m = true ->
  0 <= offset -> offset + 2 <= byteLength view ->
  byteLength view <= offset + 5 ->
  handleMarker view offset m = Normal (Return None).
Proof.
  intros Hsof H0 Hlen Hshort.
  rewrite handleMarker_length by (try apply has_SOF_not_EOI; auto).
  cbv zeta. destruct (u16BE view offset <? 2); [reflexivity|].
  rewrite Hsof.
  destruct (Z.geb_spec (offset + 5) (byteLength view)); [reflexivity|lia].
Qed.

(** The guard of the SOF payload stops one byte early: with exactly six
    bytes left from the length field the second [getUint16] reads past
    the view. *)
Lemma handleMarker_SOF_throws (view : Uint8Array) (offset m : Z) :
  has JPEG_SOF_MARKERS m = true ->
  0 <= offset -> 2 <= u16BE view offset -> offset + 6 = byteLength view ->
  handleMarker view offset m = Throw RangeError.
Proof.
  intros Hsof H0 Hseg Hlen.
  rewrite handleMarker_length by (try apply has_SOF_not_EOI; auto; lia).
  cbv zeta. destruct (Z.ltb_spec (u16BE view offset) 2); [lia|].
  rewrite Hsof.
  destruct (Z.geb_spec (offset + 5) (byteLength view)); [lia|].
  unfold readUint16BE.
  rewrite getUint8_in, getUint16_in by lia. cbn [bind].
  rewrite getUint16_out by lia. reflexivity.
Qed.

Lemma handleMarker_skip (view : Uint8Array) (offset m : Z) :
  m <> 0xD9 -> has JPEG_SOF_MARKERS m = false ->
  0 <= offset -> offset + 2 <= byteLength view -> 2 <= u16BE view offset ->
  handleMarker view offset m = Normal (Continue (offset + u16BE view offset)).
Proof.
  intros Hm Hsof H0 Hlen Hseg. rewrite handleMarker_length by assumption.
  cbv zeta. destruct (Z.ltb_spec (u16BE view offset) 2); [lia|].
  rewrite Hsof. reflexivity.
Qed.

(** A trailing [FF]: the padding loop reads the marker past the view. *)
Lemma scanBody_trailing_FF (view : Uint8Array) (o : Z) :
  0 <= o -> o + 1 = byteLength view -> byteAt view o = 0xFF ->
  scanBody view o = Throw RangeError.
Proof.
  intros H0 Hlast Hff. unfold scanBody.
  rewrite getUint8_in, Hff by lia. cbn [bind negb Z.eqb Pos.eqb].
  destruct view as [|b view]; [unfold byteLength in Hlast; simpl in Hlast; lia|].
  cbn [List.length skipPadding].
  rewrite getUint8_out by lia. reflexivity.
Qed.

(** ** The scan loop *)

Lemma scan_S (fuel : nat) (view : Uint8Array) (o : Z) :
  scan (S fuel) view o =
    if o <? byteLength view then
      t <- scanBody view o ;;
      match t with
      | Continue o' => scan fuel view o'
      | Return r => Normal r
      end
    else Normal None.
Proof. reflexivity. Qed.

Lemma scan_terminates (fuel : nat) (view : Uint8Array) (o : Z) :
  enough fuel view o -> scan fuel view o <> OutOfFuel.
Proof.
  unfold enough. revert o.
  induction fuel as [|fuel IH]; intros o Hfuel; [lia|].
  cbn [scan]. destruct (Z.ltb_spec o (byteLength view)); [|discriminate].
  destruct (scanBody view o) as [[o'|r]| |] eqn:Hbody; cbn [bind].
  - apply scanBody_advances in Hbody. apply IH. lia.
  - discriminate.
  - discriminate.
  - exfalso. revert Hbody. apply scanBody_terminates.
Qed.

Lemma scan_fuel_indep (f1 f2 : nat) (view : Uint8Array) (o : Z) :
  enough f1 view o -> enough f2 view o -> scan f1 view o = scan f2 view o.
Proof.
  unfold enough. revert f2 o.
  induction f1 as [|f1 IH]; intros f2 o H1 H2; [lia|].
  destruct f2 as [|f2]; [lia|].
  cbn [scan]. destruct (Z.ltb_spec o (byteLength view)); [|reflexivity].
  destruct (scanBody view o) as [[o'|r]| |] eqn:Hbody; cbn [bind];
    try reflexivity.
  apply scanBody_advances in Hbody. apply IH; lia.
Qed.

Lemma reaches_le (view : Uint8Array) (o o' : Z) : reaches view o o' -> o <= o'.
Proof.
  induction 1 as [o|o o1 o2 Hlt Hbody _ IH]; [lia|].
  apply scanBody_advances in Hbody. lia.
Qed.

Lemma reaches_trans (view : Uint8Array) (a b c : Z) :
  reaches view a b -> reaches view b c -> reaches view a c.
Proof.
  induction 1 as [o|o o1 o2 Hlt Hbody _ IH]; intros Hbc; [assumption|].
  eapply reaches_turn; eauto.
Qed.

Lemma scan_reaches (fuel : nat) (view : Uint8Array) (o o' : Z) :
  reaches view o o' -> enough fuel view o -> scan fuel view o = scan fuel view o'.
Proof.
  induction 1 as [o|o o1 o2 Hlt Hbody Hrest IH]; intros Hfuel; [reflexivity|].
  pose proof (scanBody_advances _ _ _ Hbody) as Hadv.
  unfold enough in *.
  destruct fuel as [|fuel]; [lia|].
  rewrite <- IH by lia.
  rewrite (scan_S fuel view o).
  destruct (Z.ltb_spec o (byteLength view)); [|lia].
  rewrite Hbody. cbn [bind].
  apply scan_fuel_indep; unfold enough; lia.
Qed.

Lemma scan_Return (fuel : nat) (view : Uint8Array) (o : Z)
      (r : option ParseResult) :
  (0 < fuel)%nat -> o < byteLength view ->
  scanBody view o = Normal (Return r) -> scan fuel view o = Normal r.
Proof.
  intros Hfuel Hlt Hbody. destruct fuel as [|fuel]; [lia|].
  cbn [scan]. destruct (Z.ltb_spec o (byteLength view)); [|lia].
  rewrite Hbody. reflexivity.
Qed.

Lemma scan_Throw (fuel : nat) (view : Uint8Array) (o : Z) (e : JsError) :
  (0 < fuel)%nat -> o < byteLength view ->
  scanBody view o = Throw e -> scan fuel view o = Throw e.
Proof.
  intros Hfuel Hlt Hbody. destruct fuel as [|fuel]; [lia|].
  cbn [scan]. destruct (Z.ltb_spec o (byteLength view)); [|lia].
  rewrite Hbody. reflexivity.
Qed.

(** ** parseJPEG *)

Lemma parseJPEG_SOI (bytes : Uint8Array) :
  startsWithSOI bytes -> parseJPEG bytes = scan (List.length bytes) bytes 2.
Proof.
  intros (Hlen & H0 & H1). unfold parseJPEG.
  destruct (Z.ltb_spec (byteLength bytes) 4); [lia|].
  rewrite !getUint8_in by lia. cbn [bind]. rewrite H0, H1. reflexivity.
Qed.

Lemma enough_SOI (bytes : Uint8Array) :
  startsWithSOI bytes -> enough (List.length bytes) bytes 2.
Proof.
  intros (Hlen & _). unfold enough, byteLength in *. lia.
Qed.

(** The value of the turn that leaves the loop is the value of
    [parseJPEG]. *)
Lemma parseJPEG_Return (bytes : Uint8Array) (o : Z) (r : option ParseResult) :
  startsWithSOI bytes -> reaches bytes 2 o -> o < byteLength bytes ->
  scanBody bytes o = Normal (Return r) ->
  parseJPEG bytes = Normal r.
Proof.
  intros Hsoi Hreach Hlt Hbody.
  rewrite parseJPEG_SOI by assumption.
  rewrite (scan_reaches _ _ _ _ Hreach) by (apply enough_SOI; assumption).
  apply scan_Return; try assumption.
  destruct Hsoi as (Hlen & _). unfold byteLength in Hlen. lia.
Qed.

Lemma parseJPEG_Throw (bytes : Uint8Array) (o : Z) (e : JsError) :
  startsWithSOI bytes -> reaches bytes 2 o -> o < byteLength bytes ->
  scanBody bytes o = Throw e ->
  parseJPEG bytes = Throw e.
Proof.
  intros Hsoi Hreach Hlt Hbody.
  rewrite parseJPEG_SOI by assumption.
  rewrite (scan_reaches _ _ _ _ Hreach) by (apply enough_SOI; assumption).
  apply scan_Throw; try assumption.
  destruct Hsoi as (Hlen & _). unfold byteLength in Hlen. lia.
Qed.

Lemma parseJPEG_terminates (bytes : Uint8Array) : terminates (parseJPEG bytes).
Proof.
  unfold terminates, parseJPEG.
  destruct (Z.ltb_spec (byteLength bytes) 4); [discriminate|].
  rewrite !getUint8_in by lia. cbn [bind].
  destruct (negb _); [discriminate|].
  destruct (negb _); [discriminate|].
  apply scan_terminates. unfold enough, byteLength in *. lia.
Qed.

Lemma parseJPEG_no_SOI (bytes : Uint8Array) :
  ~ startsWithSOI bytes -> parseJPEG bytes = Normal None.
Proof.
  intros Hno. unfold parseJPEG.
  destruct (Z.ltb_spec (byteLength bytes) 4); [reflexivity|].
  rewrite !getUint8_in by lia. cbn [bind].
  destruct (Z.eqb_spec (byteAt bytes 0) 255); [|reflexivity].
  destruct (Z.eqb_spec (byteAt bytes 1) 216); [|reflexivity].
  exfalso. apply Hno. unfold startsWithSOI. auto.
Qed.

(** ** The dispatcher *)

Lemma inspect_png (bytes : Uint8Array) (d : ParseResult) :
  parsePNG bytes = Normal (Some d) ->
  inspectImageBuffer bytes
  = Normal (mkInspection png (Some (p_width d)) (Some (p_height d))
                         (byteLength bytes)).
Proof.
  intros H. unfold inspectImageBuffer. rewrite H. reflexivity.
Qed.

Lemma inspect_jpeg (bytes : Uint8Array) (d : ParseResult) :
  parsePNG bytes = Normal None -> parseJPEG bytes = Normal (Some d) ->
  inspectImageBuffer bytes
  = Normal (mkInspection jpeg (Some (p_width d)) (Some (p_height d))
                         (byteLength bytes)).
Proof.
  intros Hp Hj. unfold inspectImageBuffer. rewrite Hp. cbn [bind].
  rewrite Hj. reflexivity.
Qed.

Lemma inspect_unknown (bytes : Uint8Array) :
  parsePNG bytes = Normal None -> parseJPEG bytes = Normal None ->
  inspectImageBuffer bytes
  = Normal (mkInspection unknown None None (byteLength bytes)).
Proof.
  intros Hp Hj. unfold inspectImageBuffer. rewrite Hp. cbn [bind].
  rewrite Hj. reflexivity.
Qed.

Lemma inspect_throw (bytes : Uint8Array) (e : JsError) :
  parsePNG bytes = Normal None -> parseJPEG bytes = Throw e ->
  inspectImageBuffer bytes = Throw e.
Proof.
  intros Hp Hj. unfold inspectImageBuffer. rewrite Hp. cbn [bind].
  rewrite Hj. reflexivity.
Qed.

(** Every way the dispatcher can return. *)
Lemma inspect_Normal (bytes : Uint8Array) (r : InspectionResult) :
  inspectImageBuffer bytes = Normal r ->
  (exists d, parsePNG bytes = Normal (Some d)
             /\ r = mkInspection png (Some (p_width d)) (Some (p_height d))
                                 (byteLength bytes))
  \/ (exists d, parsePNG bytes = Normal None
                /\ parseJPEG bytes = Normal (Some d)
                /\ r = mkInspection jpeg (Some (p_width d)) (Some (p_height d))
                                    (byteLength bytes))
  \/ (parsePNG bytes = Normal None /\ parseJPEG bytes = Normal None
      /\ r = mkInspection unknown None None (byteLength bytes)).
Proof.
  unfold inspectImageBuffer. intros H.
  destruct (parsePNG bytes) as [[d|]| |]; cbn [bind] in H; try discriminate.
  - left. exists d. split; [reflexivity|congruence].
  - destruct (parseJPEG bytes) as [[d|]| |]; cbn [bind] in H;
      try discriminate.
    + right. left. exists d. repeat split; congruence.
    + right. right. repeat split; congruence.
Qed.

Lemma inspect_terminates (bytes : Uint8Array) :
  terminates (inspectImageBuffer bytes).
Proof.
  unfold terminates, inspectImageBuffer.
  destruct (parsePNG_returns bytes) as [-> | ->]; cbn [bind]; [|discriminate].
  pose proof (parseJPEG_terminates bytes) as Hj. unfold terminates in Hj.
  destruct (parseJPEG bytes) as [[d|]| |]; cbn [bind]; congruence.
Qed.

Lemma parsePNG_SOI (bytes : Uint8Array) :
  startsWithSOI bytes -> parsePNG bytes = Normal None.
Proof.
  intros (_ & H0 & _). apply parsePNG_no_match. intros (Hsig & _).
  destruct bytes as [|b bytes]; [discriminate Hsig|].
  injection Hsig as -> _. discriminate H0.
Qed.

(** The scan comes to the last byte of the buffer and that byte is
    [FF]: the read of the marker raises. *)
Lemma parseJPEG_trailing_FF (bytes : Uint8Array) (o : Z) :
  startsWithSOI bytes -> reaches bytes 2 o ->
  o + 1 = byteLength bytes -> byteAt bytes o = 0xFF ->
  parseJPEG bytes = Throw RangeError
  /\ inspectImageBuffer bytes = Throw RangeError.
Proof.
  intros Hsoi Hreach Hlast Hff.
  pose proof (reaches_le _ _ _ Hreach) as Hle.
  assert (Hj : parseJPEG bytes = Throw RangeError).
  { apply (parseJPEG_Throw bytes o); try assumption; try lia.
    apply scanBody_trailing_FF; try assumption; lia. }
  split; [assumption|].
  apply inspect_throw; [apply parsePNG_SOI|]; assumption.
Qed.

(** The scan comes to a SOF marker whose length field is followed by
    exactly four more bytes: the read of the width raises. *)
Lemma parseJPEG_truncated_SOF (bytes : Uint8Array) (o p m : Z) :
  startsWithSOI bytes -> reaches bytes 2 o -> atMarker bytes o p m ->
  has JPEG_SOF_MARKERS m = true ->
  2 <= u16BE bytes (p + 2) -> p + 8 = byteLength bytes ->
  parseJPEG bytes = Throw RangeError
  /\ inspectImageBuffer bytes = Throw RangeError.
Proof.
  intros Hsoi Hreach Hat Hsof Hseg Hlen.
  pose proof (atMarker_inv _ _ _ _ Hat) as (Ho & _ & Hle & _).
  assert (Hj : parseJPEG bytes = Throw RangeError).
  { apply (parseJPEG_Throw bytes o); try assumption; try lia.
    rewrite (scanBody_marker _ _ _ _ Hat).
    apply handleMarker_SOF_throws; try assumption; lia. }
  split; [assumption|].
  apply inspect_throw; [apply parsePNG_SOI|]; assumption.
Qed.

(** * The claims of the specification *)

(** C1 (the code departs from the claim): [inspectImageBuffer] is not
    total in the sense of the claim.  On a buffer that starts with
    [FF D8] and ends in [FF], the padding loop of [parseJPEG] reads the
    marker one byte past the view; on a SOF segment cut inside its width
    field the guard [offset + 5 >= byteLength] lets the second 16-bit
    read run past the view.  Both reads raise a [RangeError], which
    [inspectImageBuffer] does not catch. *)
Theorem C1_inspect_raises_RangeError :
  parseJPEG trailingFF = Throw RangeError
  /\ inspectImageBuffer trailingFF = Throw RangeError
  /\ parseJPEG truncatedSOF = Throw RangeError
  /\ inspectImageBuffer truncatedSOF = Throw RangeError.
Proof. repeat split; reflexivity. Qed.

(** C2: [parsePNG] returns a dimensions record exactly when the buffer
    begins with the eight signature bytes, is at least 24 bytes long and
    has the characters I, H, D, R at offsets 12..15; the record then
    holds the big-endian 32-bit numbers at offsets 16 (width) and 20
    (height); in every other case it returns null.  The buffer of the
    PNG scenario, whatever follows it, is classified as png, 256 x 200. *)
Theorem C2_parsePNG_contract (bytes : Uint8Array) :
  ((exists d, parsePNG bytes = Normal (Some d)) <-> pngHeader bytes)
  /\ (forall d, parsePNG bytes = Normal (Some d) ->
                p_format d = png
                /\ p_width d = u32BE bytes 16 /\ p_height d = u32BE bytes 20)
  /\ (~ pngHeader bytes -> parsePNG bytes = Normal None)
  /\ (forall tail,
         inspectImageBuffer (pngScenario ++ tail)
         = Normal (mkInspection png (Some 256) (Some 200)
                                (byteLength (pngScenario ++ tail)))).
Proof.
  split; [split|split; [|split]].
  - intros [d H]. apply parsePNG_Some in H. tauto.
  - intros H. eexists. apply parsePNG_match. assumption.
  - intros d H. apply parsePNG_Some in H. destruct H as [_ ->].
    repeat split.
  - apply parsePNG_no_match.
  - intros tail.
    assert (Hhdr : pngHeader (pngScenario ++ tail)).
    { unfold pngHeader. rewrite byteLength_app.
      pose proof (byteLength_nonneg tail).
      repeat split; try reflexivity.
      change (byteLength pngScenario) with 24. lia. }
    rewrite (inspect_png _ _ (parsePNG_match _ Hhdr)). reflexivity.
Qed.

(** C4: whenever [inspectImageBuffer] returns, the [size] of the result
    is the byte length of the buffer, whatever the format; and a second
    inspection of the same buffer returns the same result. *)
Theorem C4_size_is_byteLength (bytes : Uint8Array) (r : InspectionResult)
        (H : inspectImageBuffer bytes = Normal r) :
  size r = byteLength bytes
  /\ (forall r', inspectImageBuffer bytes = Normal r' -> r' = r).
Proof.
  split.
  - apply inspect_Normal in H.
    destruct H as [(d & _ & ->)|[(d & _ & _ & ->)|(_ & _ & ->)]]; reflexivity.
  - intros r' H'. congruence.
Qed.

Lemma C4_size_witness :
  inspectImageBuffer jpegScenario
  = Normal (mkInspection jpeg (Some 200) (Some 100) 11)
  /\ size (mkInspection jpeg (Some 200) (Some 100) 11) = byteLength jpegScenario.
Proof.
  split; [reflexivity|].
  exact (proj1 (C4_size_is_byteLength jpegScenario _ eq_refl)).
Defined.



Lemma sigMismatch_ext (b1 b2 : Uint8Array) (s : list Z) (i : nat) :
  (forall j, (i <= j < i + List.length s)%nat ->
             nth_error b1 j = nth_error b2 j) ->
  sigMismatch b1 s i = sigMismatch b2 s i.
Proof.
  revert i. induction s as [|x s IH]; intros i H; [reflexivity|].
  cbn [sigMismatch]. unfold index.
  rewrite (H i) by (cbn [List.length]; lia).
  destruct (option_map byteVal (nth_error b2 i)) as [b|]; [|reflexivity].
  destruct (b =? x); [|reflexivity].
  apply IH. intros j Hj. apply H. cbn [List.length]. lia.
Qed.

Lemma byteAt_ext (b1 b2 : Uint8Array) (i : Z) :
  nth_error b1 (Z.to_nat i) = nth_error b2 (Z.to_nat i) ->
  byteAt b1 i = byteAt b2 i.
Proof. unfold byteAt. intros ->. reflexivity. Qed.

(** C10: [parsePNG] never looks at the chunk-length field.  Two buffers
    of the same length, at least 24, that agree everywhere except
    possibly at offsets 8..11 get the same answer from [parsePNG]. *)
Theorem C10_chunk_length_ignored (b1 b2 : Uint8Array) :
  List.length b1 = List.length b2 ->
  24 <= byteLength b1 ->
  (forall i, (i < 8 \/ 12 <= i)%nat -> nth_error b1 i = nth_error b2 i) ->
  parsePNG b1 = parsePNG b2.
Proof.
  intros Hlen H24 Hsame.
  assert (H24' : 24 <= byteLength b2) by (unfold byteLength in *; lia).
  rewrite !parsePNG_long by assumption.
  rewrite (sigMismatch_ext b1 b2)
    by (intros j Hj; apply Hsame; cbn [List.length sig] in Hj; lia).
  unfold u32BE.
  rewrite !(byteAt_ext b1 b2) by (apply Hsame; lia).
  reflexivity.
Qed.

Lemma C10_chunk_length_witness :
  parsePNG pngScenario = parsePNG pngOtherLength.
Proof.
  apply C10_chunk_length_ignored.
  - reflexivity.
  - vm_compute. discriminate.
  - intros i Hi.
    do 8 (destruct i as [|i]; [reflexivity|]).
    do 4 (destruct i as [|i]; [lia|]).
    do 12 (destruct i as [|i]; [reflexivity|]).
    reflexivity.
Defined.

(** ** The JPEG claims *)

(** The frame header found at a marker decides the answer. *)
Lemma parseJPEG_SOF (bytes : Uint8Array) (o p m : Z) :
  startsWithSOI bytes -> reaches bytes 2 o -> atMarker bytes o p m ->
  has JPEG_SOF_MARKERS m = true ->
  2 <= u16BE bytes (p + 2) -> p + 9 <= byteLength bytes ->
  parseJPEG bytes
  = Normal (Some (mkParse jpeg (u16BE bytes (p + 7)) (u16BE bytes (p + 5)))).
Proof.
  intros Hsoi Hreach Hat Hsof Hseg Hlen.
  pose proof (atMarker_inv _ _ _ _ Hat) as (Ho & _ & Hle & _).
  apply (parseJPEG_Return bytes o); try assumption; try lia.
  rewrite (scanBody_marker _ _ _ _ Hat).
  rewrite handleMarker_SOF by (try assumption; lia).
  replace (p + 2 + 5) with (p + 7) by lia.
  replace (p + 2 + 3) with (p + 5) by lia.
  reflexivity.
Qed.

Lemma startsWithSOI_app (head tail : Uint8Array) :
  startsWithSOI head -> startsWithSOI (head ++ tail).
Proof.
  intros (Hlen & H0 & H1). unfold startsWithSOI.
  rewrite byteLength_app, !byteAt_app_l by lia.
  pose proof (byteLength_nonneg tail). repeat split; try assumption; lia.
Qed.

(** The marker right after [FF D8], when its [FF] is not padded. *)
Lemma atMarker_first (bytes : Uint8Array) :
  4 <= byteLength bytes -> byteAt bytes 2 = 0xFF -> byteAt bytes 3 <> 0xFF ->
  atMarker bytes 2 2 (byteAt bytes 3).
Proof.
  intros Hlen H2 H3. split.
  - rewrite getUint8_in, H2 by lia. reflexivity.
  - destruct bytes as [|b bytes]; [unfold byteLength in Hlen; simpl in Hlen; lia|].
    cbn [List.length skipPadding].
    rewrite getUint8_in by lia. cbn [bind]. change (2 + 1) with 3.
    destruct (Z.eqb_spec (byteAt (b :: bytes) 3) 255); [contradiction|].
    reflexivity.
Qed.

(** What a turn does at a SOF marker with a length field of at least
    2: it never goes round again. *)
Lemma scanBody_SOF (bytes : Uint8Array) (o p m : Z) :
  atMarker bytes o p m -> has JPEG_SOF_MARKERS m = true ->
  p + 4 <= byteLength bytes -> 2 <= u16BE bytes (p + 2) ->
  (byteLength bytes <= p + 7 /\ scanBody bytes o = Normal (Return None))
  \/ (byteLength bytes = p + 8 /\ scanBody bytes o = Throw RangeError)
  \/ (p + 9 <= byteLength bytes /\
      scanBody bytes o
      = Normal (Return (Some (mkParse jpeg (u16BE bytes (p + 7))
                                           (u16BE bytes (p + 5)))))).
Proof.
  intros Hat Hsof Hfield Hseg.
  pose proof (atMarker_inv _ _ _ _ Hat) as (Ho & _ & Hle & _).
  rewrite (scanBody_marker _ _ _ _ Hat).
  destruct (Z.le_gt_cases (byteLength bytes) (p + 7)) as [Hshort|Hlong].
  - left. split; [assumption|].
    apply handleMarker_SOF_short; try assumption; lia.
  - right. destruct (Z.eq_dec (byteLength bytes) (p + 8)) as [Heq|Hne].
    + left. split; [assumption|].
      apply handleMarker_SOF_throws; try assumption; lia.
    + right. split; [lia|].
      rewrite handleMarker_SOF by (try assumption; lia).
      replace (p + 2 + 5) with (p + 7) by lia.
      replace (p + 2 + 3) with (p + 5) by lia.
      reflexivity.
Qed.

(** C3: in a buffer that starts with [FF D8], when the scan comes to its
    first marker of the SOF set and the length field is at least 2, the
    scan stops there (the turn never goes round again), the only
    dimensions [parseJPEG] can return are those of this segment, laid
    out as precision (1 byte), height (2 bytes, big-endian), width
    (2 bytes, big-endian), and it does return them when these five bytes
    are in the buffer.  The buffer of the JPEG scenario, whatever
    follows it, is jpeg, width 200, height 100. *)
Theorem C3_first_SOF_wins :
  (forall (bytes : Uint8Array) (o p m : Z),
      startsWithSOI bytes ->
      reaches bytes 2 o ->
      atMarker bytes o p m ->
      has JPEG_SOF_MARKERS m = true ->
      p + 4 <= byteLength bytes ->
      2 <= u16BE bytes (p + 2) ->
      let offset := p + 2 in
      let dims := mkParse jpeg (u16BE bytes (offset + 5))
                               (u16BE bytes (offset + 3)) in
      (forall o', scanBody bytes o <> Normal (Continue o'))
      /\ (forall d, parseJPEG bytes = Normal (Some d) -> d = dims)
      /\ (offset + 7 <= byteLength bytes ->
          parseJPEG bytes = Normal (Some dims)))
  /\ (forall tail,
        inspectImageBuffer (jpegScenario ++ tail)
        = Normal (mkInspection jpeg (Some 200) (Some 100)
                               (byteLength (jpegScenario ++ tail)))).
Proof.
  split.
  - intros bytes o p m Hsoi Hreach Hat Hsof Hfield Hseg offset dims.
    subst offset dims.
    replace (p + 2 + 5) with (p + 7) by lia.
    replace (p + 2 + 3) with (p + 5) by lia.
    pose proof (atMarker_inv _ _ _ _ Hat) as (Ho & _).
    pose proof (scanBody_SOF bytes o p m Hat Hsof Hfield Hseg) as Hcases.
    split; [|split].
    + intros o' Hc.
      destruct Hcases as [[_ E]|[[_ E]|[_ E]]]; rewrite E in Hc;
        discriminate Hc.
    + intros d Hd.
      destruct Hcases as [[_ E]|[[_ E]|[_ E]]].
      * rewrite (parseJPEG_Return bytes o None) in Hd by (auto; lia).
        discriminate Hd.
      * rewrite (parseJPEG_Throw bytes o RangeError) in Hd by (auto; lia).
        discriminate Hd.
      * rewrite (parseJPEG_Return bytes o _ Hsoi Hreach (proj2 Ho) E) in Hd.
        congruence.
    + intros Hlen. apply (parseJPEG_SOF bytes o p m); try assumption. lia.
  - intros tail.
    assert (Hsoi' : startsWithSOI (jpegScenario ++ tail)).
    { apply startsWithSOI_app. repeat split. vm_compute. discriminate. }
    assert (Hat' : atMarker (jpegScenario ++ tail) 2 2 0xC0).
    { apply (atMarker_first (jpegScenario ++ tail)).
      - apply Hsoi'.
      - reflexivity.
      - discriminate. }
    rewrite (inspect_jpeg (jpegScenario ++ tail) (mkParse jpeg 200 100)).
    + reflexivity.
    + apply parsePNG_no_match. intros (Hsig & _). discriminate Hsig.
    + apply (parseJPEG_SOF _ 2 2 0xC0 Hsoi' (reaches_here _ 2) Hat').
      * reflexivity.
      * vm_compute. discriminate.
      * rewrite byteLength_app. pose proof (byteLength_nonneg tail).
        change (byteLength jpegScenario) with 11. lia.
Qed.

Lemma C3_first_SOF_witness :
  parseJPEG jpegScenario = Normal (Some (mkParse jpeg 200 100)).
Proof.
  refine (proj2 (proj2 (proj1 C3_first_SOF_wins jpegScenario 2 2 0xC0
                              _ _ _ _ _ _)) _).
  - repeat split. vm_compute. discriminate.
  - apply reaches_here.
  - split; reflexivity.
  - reflexivity.
  - vm_compute. discriminate.
  - vm_compute. discriminate.
  - vm_compute. discriminate.
Defined.

(** C5: at a SOF marker [parseJPEG] only asks for a length field of at
    least 2 and for read offsets inside the buffer.  A SOF segment that
    announces a length from 2 to 6 still yields the height and width
    read at the fixed offsets, and the last byte read lies at or after
    the end of the announced segment. *)
Theorem C5_SOF_length_not_checked (bytes : Uint8Array) (o p m : Z) :
  startsWithSOI bytes ->
  reaches bytes 2 o ->
  atMarker bytes o p m ->
  has JPEG_SOF_MARKERS m = true ->
  2 <= u16BE bytes (p + 2) <= 6 ->
  p + 9 <= byteLength bytes ->
  parseJPEG bytes
  = Normal (Some (mkParse jpeg (u16BE bytes (p + 7)) (u16BE bytes (p + 5))))
  /\ (p + 2) + u16BE bytes (p + 2) <= p + 8.
Proof.
  intros Hsoi Hreach Hat Hsof Hseg Hlen. split; [|lia].
  apply (parseJPEG_SOF bytes o p m); try assumption. lia.
Qed.

Lemma C5_SOF_length_witness :
  parseJPEG shortSOF = Normal (Some (mkParse jpeg 200 100)).
Proof.
  refine (proj1 (C5_SOF_length_not_checked shortSOF 2 2 0xC0 _ _ _ _ _ _)).
  - repeat split. vm_compute. discriminate.
  - apply reaches_here.
  - split; reflexivity.
  - reflexivity.
  - vm_compute. split; discriminate.
  - vm_compute. discriminate.
Defined.

(** C7: when the length field that the scan reads is below 2,
    [parseJPEG] returns null for the whole buffer at once, for a SOF
    marker as for any other. *)
Theorem C7_length_below_2_fails (bytes : Uint8Array) (o p m : Z) :
  startsWithSOI bytes ->
  reaches bytes 2 o ->
  atMarker bytes o p m ->
  m <> 0xD9 ->
  p + 4 <= byteLength bytes ->
  u16BE bytes (p + 2) < 2 ->
  scanBody bytes o = Normal (Return None)
  /\ parseJPEG bytes = Normal None.
Proof.
  intros Hsoi Hreach Hat Hm Hlen Hseg.
  pose proof (atMarker_inv _ _ _ _ Hat) as (Ho & _ & Hle & _).
  assert (Hbody : scanBody bytes o = Normal (Return None)).
  { rewrite (scanBody_marker _ _ _ _ Hat).
    apply handleMarker_bad_length; try assumption; lia. }
  split; [assumption|].
  apply (parseJPEG_Return bytes o); try assumption; lia.
Qed.

Lemma C7_length_witness :
  parseJPEG badLength = Normal None.
Proof.
  refine (proj2 (C7_length_below_2_fails badLength 2 2 0xC0 _ _ _ _ _ _)).
  - repeat split. vm_compute. discriminate.
  - apply reaches_here.
  - split; reflexivity.
  - discriminate.
  - vm_compute. discriminate.
  - reflexivity.
Defined.

Lemma parseJPEG_EOI (bytes : Uint8Array) (o p : Z) :
  startsWithSOI bytes -> reaches bytes 2 o -> atMarker bytes o p 0xD9 ->
  parseJPEG bytes = Normal None.
Proof.
  intros Hsoi Hreach Hat.
  pose proof (atMarker_inv _ _ _ _ Hat) as (Ho & _).
  apply (parseJPEG_Return bytes o); try assumption; try lia.
  rewrite (scanBody_marker _ _ _ _ Hat). apply handleMarker_EOI.
Qed.

(** A marker whose [FF] is not padded, anywhere in the buffer. *)
Lemma atMarker_at (pre rest : Uint8Array) (m : byte) :
  byteVal m <> 0xFF ->
  atMarker (pre ++ xff :: m :: rest) (byteLength pre) (byteLength pre)
           (byteVal m).
Proof.
  intros Hm. pose proof (byteLength_nonneg pre) as Hpre.
  assert (Hlen : byteLength (pre ++ xff :: m :: rest)
                 = byteLength pre + 2 + byteLength rest).
  { rewrite byteLength_app. unfold byteLength. cbn [List.length]. lia. }
  pose proof (byteLength_nonneg rest) as Hrest.
  assert (H0 : byteAt (pre ++ xff :: m :: rest) (byteLength pre) = 255).
  { pose proof (byteAt_app_r pre (xff :: m :: rest) 0) as E.
    rewrite Z.add_0_r in E. rewrite E by lia. reflexivity. }
  assert (H1 : byteAt (pre ++ xff :: m :: rest) (byteLength pre + 1)
               = byteVal m).
  { rewrite byteAt_app_r by lia. reflexivity. }
  split.
  - rewrite getUint8_in, H0 by lia. reflexivity.
  - rewrite length_app. cbn [List.length]. rewrite Nat.add_succ_r.
    cbn [skipPadding].
    rewrite getUint8_in, H1 by lia. cbn [bind].
    destruct (Z.eqb_spec (byteVal m) 255); [contradiction|reflexivity].
Qed.

(** The scan walks over a run of DHT segments, whatever comes before
    and after them. *)
Lemma reaches_dht (segs : list (list byte)) :
  Forall dhtSegment segs ->
  forall pre rest : Uint8Array,
    reaches (pre ++ List.concat segs ++ rest)
            (byteLength pre) (byteLength (pre ++ List.concat segs)).
Proof.
  induction 1 as [|seg segs Hseg _ IH]; intros pre rest.
  - cbn [List.concat]. rewrite app_nil_r. apply reaches_here.
  - destruct Hseg as (hi & lo & payload & -> & Hlen).
    cbn [List.concat].
    set (seg := ([xff; xc4; hi; lo]%byte ++ payload)).
    set (view := pre ++ (seg ++ List.concat segs) ++ rest).
    assert (Hview : view = (pre ++ seg) ++ List.concat segs ++ rest).
    { unfold view. rewrite <- !app_assoc. reflexivity. }
    assert (Hview' : view = pre ++ xff :: xc4 :: (hi :: lo :: payload ++ List.concat segs ++ rest)).
    { unfold view, seg. cbn [app]. rewrite <- !app_assoc. reflexivity. }
    pose proof (byteLength_nonneg pre) as Hpre.
    pose proof (byteLength_nonneg (payload ++ List.concat segs ++ rest)) as Hrest.
    assert (Hsize : byteLength view
                    = byteLength pre + 4
                      + byteLength (payload ++ List.concat segs ++ rest)).
    { rewrite Hview', byteLength_app. unfold byteLength.
      cbn [List.length]. lia. }
    assert (Hat : atMarker view (byteLength pre) (byteLength pre) 0xC4).
    { rewrite Hview'. apply (atMarker_at pre _ xc4). discriminate. }
    assert (Hu16 : u16BE view (byteLength pre + 2)
                   = 2 + Z.of_nat (List.length payload)).
    { unfold u16BE. rewrite Hview'.
      replace (byteLength pre + 2 + 1) with (byteLength pre + 3) by lia.
      rewrite !byteAt_app_r by lia. rewrite <- Hlen. reflexivity. }
    apply (reaches_turn view _ (byteLength (pre ++ seg))).
    + lia.
    + rewrite (scanBody_marker _ _ _ _ Hat).
      rewrite handleMarker_skip; try (rewrite Hu16); try lia;
        try discriminate; try reflexivity.
      f_equal. f_equal. rewrite byteLength_app. unfold seg, byteLength.
      rewrite length_app. cbn [List.length]. lia.
    + replace (byteLength (pre ++ seg ++ List.concat segs))
        with (byteLength ((pre ++ seg) ++ List.concat segs))
        by (rewrite <- app_assoc; reflexivity).
      rewrite Hview. apply IH.
Qed.

(** C6: when the scan meets the marker code [D9] before any SOF marker
    it stops and [parseJPEG] returns null.  So a buffer made of [FF D8],
    DHT segments only and then [FF D9] is classified as unknown. *)
Theorem C6_EOI_before_SOF :
  (forall (bytes : Uint8Array) (o p : Z),
      startsWithSOI bytes ->
      reaches bytes 2 o ->
      atMarker bytes o p 0xD9 ->
      scanBody bytes o = Normal (Return None)
      /\ parseJPEG bytes = Normal None)
  /\ (forall (segs : list (list byte)) (tail : Uint8Array),
        Forall dhtSegment segs ->
        let bytes := [xff; xd8]%byte ++ List.concat segs ++ [xff; xd9]%byte ++ tail in
        inspectImageBuffer bytes
        = Normal (mkInspection unknown None None (byteLength bytes))).
Proof.
  split.
  - intros bytes o p Hsoi Hreach Hat. split.
    + rewrite (scanBody_marker _ _ _ _ Hat). apply handleMarker_EOI.
    + apply (parseJPEG_EOI bytes o p); assumption.
  - intros segs tail Hsegs bytes.
    apply inspect_unknown.
    + apply parsePNG_no_match. intros (Hsig & _). discriminate Hsig.
    + pose proof (reaches_dht segs Hsegs [xff; xd8]%byte
                              ([xff; xd9]%byte ++ tail)) as Hreach.
      change (byteLength [xff; xd8]%byte) with 2 in Hreach.
      fold bytes in Hreach.
      set (pre := [xff; xd8]%byte ++ List.concat segs) in *.
      assert (Hbytes : bytes = pre ++ xff :: xd9 :: tail).
      { unfold bytes, pre. rewrite <- app_assoc. reflexivity. }
      assert (Hpre : 2 <= byteLength pre).
      { unfold pre. rewrite byteLength_app.
        pose proof (byteLength_nonneg (List.concat segs)).
        change (byteLength [xff; xd8]%byte) with 2. lia. }
      apply (parseJPEG_EOI bytes (byteLength pre) (byteLength pre)).
      * unfold startsWithSOI. rewrite Hbytes, byteLength_app.
        rewrite !byteAt_app_l by lia.
        unfold byteLength at 2. cbn [List.length].
        repeat split; try reflexivity. lia.
      * exact Hreach.
      * rewrite Hbytes. apply (atMarker_at pre tail xd9). discriminate.
Qed.

Lemma C6_EOI_witness :
  inspectImageBuffer ([xff; xd8]%byte ++ List.concat dhtOnly ++ [xff; xd9]%byte ++ [])
  = Normal (mkInspection unknown None None 14).
Proof.
  refine (proj2 C6_EOI_before_SOF dhtOnly [] _).
  repeat constructor.
  - exists x00, x04, [x01; x02]%byte. split; reflexivity.
  - exists x00, x02, []. split; reflexivity.
Defined.



(** * Further properties of the header parser *)

(** ** How the scan ends *)

(** A finished scan ended at some loop head: past the buffer, or on a
    turn that returned or raised. *)
Lemma scan_final (fuel : nat) (view : Uint8Array) (o : Z)
      (R : completion (option ParseResult)) :
  scan fuel view o = R -> R <> OutOfFuel ->
  exists o',
    reaches view o o'
    /\ ((byteLength view <= o' /\ R = Normal None)
        \/ (o' < byteLength view /\
            exists r, scanBody view o' = Normal (Return r) /\ R = Normal r)
        \/ (o' < byteLength view /\
            exists e, scanBody view o' = Throw e /\ R = Throw e)).
Proof.
  revert o. induction fuel as [|fuel IH]; intros o H HR.
  - cbn [scan] in H. congruence.
  - rewrite scan_S in H.
    destruct (Z.ltb_spec o (byteLength view)) as [Hlt|Hge].
    + destruct (scanBody view o) as [[o1|r]| |] eqn:Hbody; cbn [bind] in H.
      * destruct (IH o1 H HR) as (o' & Hreach & Hend).
        exists o'. split; [|assumption].
        eapply reaches_turn; eassumption.
      * exists o. split; [apply reaches_here|].
        right. left. split; [assumption|]. exists r. auto.
      * exists o. split; [apply reaches_here|].
        right. right. split; [assumption|]. exists e. auto.
      * congruence.
    + exists o. split; [apply reaches_here|]. left. split; [lia|congruence].
Qed.

Lemma parseJPEG_inv (bytes : Uint8Array) :
  (~ startsWithSOI bytes /\ parseJPEG bytes = Normal None)
  \/ (startsWithSOI bytes /\
      exists o,
        reaches bytes 2 o
        /\ ((byteLength bytes <= o /\ parseJPEG bytes = Normal None)
            \/ (o < byteLength bytes /\
                exists r, scanBody bytes o = Normal (Return r)
                          /\ parseJPEG bytes = Normal r)
            \/ (o < byteLength bytes /\
                exists e, scanBody bytes o = Throw e
                          /\ parseJPEG bytes = Throw e))).
Proof.
  destruct (Z.ltb_spec (byteLength bytes) 4) as [Hshort|Hlong].
  { left. split; [intros (H & _); lia|].
    apply parseJPEG_no_SOI. intros (H & _). lia. }
  destruct (Z.eq_dec (byteAt bytes 0) 255) as [H0|H0];
    [|left; split; [intros (_ & H & _); contradiction
                   |apply parseJPEG_no_SOI; intros (_ & H & _); contradiction]].
  destruct (Z.eq_dec (byteAt bytes 1) 216) as [H1|H1];
    [|left; split; [intros (_ & _ & H); contradiction
                   |apply parseJPEG_no_SOI; intros (_ & _ & H); contradiction]].
  assert (Hsoi : startsWithSOI bytes) by (unfold startsWithSOI; auto).
  right. split; [assumption|].
  rewrite parseJPEG_SOI by assumption.
  apply (scan_final (List.length bytes) bytes 2); [reflexivity|].
  apply scan_terminates. apply enough_SOI. assumption.
Qed.

(** ** Turns that return dimensions, turns that raise *)

Lemma skipPadding_Throw (fuel : nat) (view : Uint8Array) (o : Z) (e : JsError) :
  0 <= o + 1 -> skipPadding fuel view o = Throw e ->
  e = RangeError /\ forall i, o < i < byteLength view -> byteAt view i = 0xFF.
Proof.
  revert o. induction fuel as [|fuel IH]; intros o Ho H; [discriminate|].
  cbn [skipPadding] in H.
  destruct (Z.lt_ge_cases (o + 1) (byteLength view)) as [Hin|Hout].
  - rewrite getUint8_in in H by lia. cbn [bind] in H.
    destruct (Z.eqb_spec (byteAt view (o + 1)) 255) as [E|E]; [|discriminate].
    destruct (IH (o + 1) ltac:(lia) H) as (He & Hrun).
    split; [assumption|]. intros i Hi.
    destruct (Z.eq_dec i (o + 1)) as [->|Hne]; [assumption|].
    apply Hrun. lia.
  - rewrite getUint8_out in H by lia. cbn [bind] in H.
    split; [congruence|]. intros i Hi. lia.
Qed.

Lemma skipPadding_all_FF (fuel : nat) (view : Uint8Array) (o : Z) :
  0 <= o + 1 -> byteLength view - o <= Z.of_nat fuel -> (0 < fuel)%nat ->
  (forall i, o < i < byteLength view -> byteAt view i = 0xFF) ->
  skipPadding fuel view o = Throw RangeError.
Proof.
  revert o. induction fuel as [|fuel IH]; intros o Ho Hfuel Hpos Hrun; [lia|].
  cbn [skipPadding].
  destruct (Z.lt_ge_cases (o + 1) (byteLength view)) as [Hin|Hout].
  - rewrite getUint8_in by lia. cbn [bind].
    rewrite (Hrun (o + 1)) by lia. cbn [Z.eqb Pos.eqb].
    apply IH; try lia. intros i Hi. apply Hrun. lia.
  - rewrite getUint8_out by lia. reflexivity.
Qed.

Lemma scanBody_Some_inv (view : Uint8Array) (o : Z) (d : ParseResult) :
  scanBody view o = Normal (Return (Some d)) ->
  exists p m,
    atMarker view o p m /\ has JPEG_SOF_MARKERS m = true
    /\ 2 <= u16BE view (p + 2) /\ p + 9 <= byteLength view
    /\ d = mkParse jpeg (u16BE view (p + 7)) (u16BE view (p + 5)).
Proof.
  intros H. unfold scanBody in H.
  destruct (getUint8 view o) as [b| |] eqn:Hget; try discriminate.
  cbn [bind] in H. pose proof Hget as Hget'.
  apply getUint8_Normal in Hget'. destruct Hget' as [Hin ->].
  destruct (Z.eqb_spec (byteAt view o) 255) as [E|E]; cbn [negb] in H;
    [|discriminate].
  destruct (skipPadding (List.length view) view o) as [[p m]| |] eqn:Hpad;
    try discriminate.
  cbn [bind fst snd] in H. exists p, m.
  assert (Hat : atMarker view o p m).
  { split; [rewrite Hget, E; reflexivity|assumption]. }
  pose proof (atMarker_inv _ _ _ _ Hat) as (_ & _ & Hle & Hp & _).
  split; [assumption|].
  unfold handleMarker, readUint16BE in H.
  destruct (Z.eqb_spec m 217); [discriminate|].
  destruct (Z.gtb_spec (p + 2 + 2) (byteLength view)); [discriminate|].
  rewrite getUint16_in in H by lia. cbn [bind] in H.
  destruct (Z.ltb_spec (u16BE view (p + 2)) 2); [discriminate|].
  destruct (has JPEG_SOF_MARKERS m); [|discriminate].
  destruct (Z.geb_spec (p + 2 + 5) (byteLength view)); [discriminate|].
  rewrite getUint8_in, getUint16_in in H by lia. cbn [bind] in H.
  destruct (Z.le_gt_cases (p + 9) (byteLength view)) as [Hfit|Hcut].
  - rewrite getUint16_in in H by lia. cbn [bind] in H.
    replace (p + 2 + 5) with (p + 7) in H by lia.
    replace (p + 2 + 3) with (p + 5) in H by lia.
    repeat split; try assumption. congruence.
  - rewrite getUint16_out in H by lia. discriminate.
Qed.

Lemma scanBody_Throw_inv (view : Uint8Array) (o : Z) (e : JsError) :
  0 <= o < byteLength view -> scanBody view o = Throw e ->
  e = RangeError
  /\ ((forall i, o <= i < byteLength view -> byteAt view i = 0xFF)
      \/ (exists p m,
             atMarker view o p m /\ has JPEG_SOF_MARKERS m = true
             /\ 2 <= u16BE view (p + 2) /\ byteLength view = p + 8)).
Proof.
  intros Hin H. unfold scanBody in H.
  pose proof (getUint8_in view o Hin) as Hget. rewrite Hget in H.
  cbn [bind] in H.
  destruct (Z.eqb_spec (byteAt view o) 255) as [E|E]; cbn [negb] in H;
    [|discriminate].
  destruct (skipPadding (List.length view) view o) as [[p m]| |] eqn:Hpad;
    cbn [bind fst snd] in H; [| |discriminate].
  - assert (Hat : atMarker view o p m).
    { split; [rewrite Hget, E; reflexivity|assumption]. }
    pose proof (atMarker_inv _ _ _ _ Hat) as (_ & _ & Hle & Hp & _).
    unfold handleMarker, readUint16BE in H.
    destruct (Z.eqb_spec m 217); [discriminate|].
    destruct (Z.gtb_spec (p + 2 + 2) (byteLength view)); [discriminate|].
    rewrite getUint16_in in H by lia. cbn [bind] in H.
    destruct (Z.ltb_spec (u16BE view (p + 2)) 2); [discriminate|].
    destruct (has JPEG_SOF_MARKERS m) eqn:Hsof; [|discriminate].
    destruct (Z.geb_spec (p + 2 + 5) (byteLength view)); [discriminate|].
    rewrite getUint8_in, getUint16_in in H by lia. cbn [bind] in H.
    destruct (Z.le_gt_cases (p + 9) (byteLength view)) as [Hfit|Hcut].
    + rewrite getUint16_in in H by lia. discriminate.
    + rewrite getUint16_out in H by lia. cbn [bind] in H.
      split; [congruence|]. right. exists p, m.
      split; [exact Hat|]. repeat split; try assumption; lia.
  - apply skipPadding_Throw in Hpad; [|lia].
    destruct Hpad as (He & Hrun). inversion H; subst.
    split; [reflexivity|]. left. intros i Hi.
    destruct (Z.eq_dec i o) as [->|Hne]; [assumption|]. apply Hrun. lia.
Qed.

Lemma atMarker_run_inv (view : Uint8Array) (o p m : Z) :
  atMarker view o p m -> forall i, o <= i <= p -> byteAt view i = 0xFF.
Proof.
  intros [Hff Hpad]. apply getUint8_Normal in Hff. destruct Hff as [Hin Hff].
  assert (Hrun : forall fuel o0,
             skipPadding fuel view o0 = Normal (p, m) ->
             forall i, o0 < i <= p -> byteAt view i = 0xFF).
  { induction fuel as [|fuel IH]; intros o0 H i Hi; [discriminate|].
    cbn [skipPadding] in H.
    destruct (getUint8 view (o0 + 1)) as [mk| |] eqn:Hget; try discriminate.
    cbn [bind] in H. apply getUint8_Normal in Hget. destruct Hget as [_ ->].
    destruct (Z.eqb_spec (byteAt view (o0 + 1)) 255) as [E|E].
    - destruct (Z.eq_dec i (o0 + 1)) as [->|Hne]; [assumption|].
      apply (IH (o0 + 1) H). lia.
    - inversion H; subst. lia. }
  intros i Hi. destruct (Z.eq_dec i o) as [->|Hne]; [auto|].
  apply (Hrun _ _ Hpad). lia.
Qed.

(** ** A longer buffer: what was found stays found *)

Lemma atMarker_app (view tail : Uint8Array) (o p m : Z) :
  atMarker view o p m -> atMarker (view ++ tail) o p m.
Proof.
  intros Hat.
  pose proof (atMarker_inv _ _ _ _ Hat) as (Ho & _ & Hle & Hp & Hm & Hne).
  pose proof (atMarker_run_inv _ _ _ _ Hat) as Hrun.
  pose proof (byteLength_nonneg tail) as Htail.
  subst m. rewrite <- (byteAt_app_l view tail (p + 1)) by lia.
  apply atMarker_run.
  - lia.
  - rewrite byteLength_app. lia.
  - intros i Hi. rewrite byteAt_app_l by lia. apply Hrun. assumption.
  - rewrite byteAt_app_l by lia. assumption.
Qed.

Lemma u16BE_app_l (view tail : Uint8Array) (off : Z) :
  0 <= off -> off + 2 <= byteLength view ->
  u16BE (view ++ tail) off = u16BE view off.
Proof.
  intros H0 H1. unfold u16BE. rewrite !byteAt_app_l by lia. reflexivity.
Qed.

Lemma u32BE_app_l (view tail : Uint8Array) (off : Z) :
  0 <= off -> off + 4 <= byteLength view ->
  u32BE (view ++ tail) off = u32BE view off.
Proof.
  intros H0 H1. unfold u32BE. rewrite !byteAt_app_l by lia. reflexivity.
Qed.

Lemma scanBody_Normal_in (view : Uint8Array) (o : Z) (t : turn) :
  scanBody view o = Normal t -> 0 <= o < byteLength view.
Proof.
  unfold scanBody. intros H.
  destruct (getUint8 view o) as [b| |] eqn:Hget; try discriminate.
  apply getUint8_Normal in Hget. tauto.
Qed.

Lemma scanBody_Continue_inv (view : Uint8Array) (o o' : Z) :
  scanBody view o = Normal (Continue o') ->
  (byteAt view o <> 0xFF /\ o' = o + 1)
  \/ (exists p m,
         atMarker view o p m /\ m <> 0xD9 /\ has JPEG_SOF_MARKERS m = false
         /\ p + 4 <= byteLength view /\ 2 <= u16BE view (p + 2)
         /\ o' = p + 2 + u16BE view (p + 2)).
Proof.
  intros H. pose proof (scanBody_Continue _ _ _ H) as Hc.
  destruct Hc as [Hl|(Hff & p & m & segLen & Hat & Hle & Hm & Hsof & -> & Hseg & ->)];
    [left; assumption|right].
  exists p, m. repeat (split; [assumption|]). split; [|split; [assumption|reflexivity]].
  destruct (Z.le_gt_cases (p + 4) (byteLength view)) as [|Hcut]; [assumption|].
  exfalso. rewrite (scanBody_marker _ _ _ _ Hat) in H.
  rewrite handleMarker_no_length in H by lia. discriminate.
Qed.

Lemma scanBody_app_Continue (view tail : Uint8Array) (o o' : Z) :
  scanBody view o = Normal (Continue o') ->
  scanBody (view ++ tail) o = Normal (Continue o').
Proof.
  intros H. pose proof (scanBody_Normal_in _ _ _ H) as Hin.
  pose proof (byteLength_nonneg tail) as Htail.
  destruct (scanBody_Continue_inv _ _ _ H)
    as [[Hne ->]|(p & m & Hat & Hm & Hsof & Hfield & Hseg & ->)].
  - apply scanBody_not_FF.
    + rewrite byteLength_app. lia.
    + rewrite byteAt_app_l by lia. assumption.
  - pose proof (atMarker_inv _ _ _ _ Hat) as (_ & _ & Hle & _).
    rewrite (scanBody_marker _ _ _ _ (atMarker_app view tail o p m Hat)).
    rewrite handleMarker_skip; try assumption.
    + rewrite u16BE_app_l by lia. reflexivity.
    + lia.
    + rewrite byteLength_app. lia.
    + rewrite u16BE_app_l by lia. assumption.
Qed.

Lemma scanBody_app_Some (view tail : Uint8Array) (o : Z) (d : ParseResult) :
  scanBody view o = Normal (Return (Some d)) ->
  scanBody (view ++ tail) o = Normal (Return (Some d)).
Proof.
  intros H. pose proof (byteLength_nonneg tail) as Htail.
  destruct (scanBody_Some_inv _ _ _ H)
    as (p & m & Hat & Hsof & Hseg & Hfit & ->).
  pose proof (atMarker_inv _ _ _ _ Hat) as (Ho & _ & Hle & _).
  rewrite (scanBody_marker _ _ _ _ (atMarker_app view tail o p m Hat)).
  rewrite handleMarker_SOF; try assumption.
  - replace (p + 2 + 5) with (p + 7) by lia.
    replace (p + 2 + 3) with (p + 5) by lia.
    rewrite !u16BE_app_l by lia. reflexivity.
  - lia.
  - rewrite u16BE_app_l by lia. assumption.
  - rewrite byteLength_app. lia.
Qed.

Lemma reaches_app (view tail : Uint8Array) (o o' : Z) :
  reaches view o o' -> reaches (view ++ tail) o o'.
Proof.
  induction 1 as [o|o o1 o2 Hlt Hbody _ IH]; [apply reaches_here|].
  apply (reaches_turn _ o o1 o2).
  - rewrite byteLength_app. pose proof (byteLength_nonneg tail). lia.
  - apply scanBody_app_Continue. assumption.
  - assumption.
Qed.

Lemma parseJPEG_Some_inv (bytes : Uint8Array) (d : ParseResult) :
  parseJPEG bytes = Normal (Some d) ->
  startsWithSOI bytes
  /\ exists o, reaches bytes 2 o /\ scanBody bytes o = Normal (Return (Some d)).
Proof.
  intros H.
  destruct (parseJPEG_inv bytes) as [[_ E]|(Hsoi & o & Hreach & Hend)];
    [congruence|].
  split; [assumption|]. exists o. split; [assumption|].
  destruct Hend as [[_ E]|[(_ & r & Hbody & E)|(_ & e & _ & E)]];
    try congruence.
Qed.

Lemma parseJPEG_app (bytes tail : Uint8Array) (d : ParseResult) :
  parseJPEG bytes = Normal (Some d) ->
  parseJPEG (bytes ++ tail) = Normal (Some d).
Proof.
  intros H. destruct (parseJPEG_Some_inv _ _ H) as (Hsoi & o & Hreach & Hbody).
  pose proof (scanBody_Normal_in _ _ _ Hbody) as Hin.
  apply (parseJPEG_Return (bytes ++ tail) o).
  - apply startsWithSOI_app. assumption.
  - apply reaches_app. assumption.
  - rewrite byteLength_app. pose proof (byteLength_nonneg tail). lia.
  - apply scanBody_app_Some. assumption.
Qed.

Lemma pngHeader_app (bytes tail : Uint8Array) :
  pngHeader bytes -> pngHeader (bytes ++ tail).
Proof.
  intros (Hsig & Hlen & H12 & H13 & H14 & H15).
  pose proof (byteLength_nonneg tail) as Htail.
  unfold pngHeader. rewrite byteLength_app, !byteAt_app_l by lia.
  repeat split; try assumption; try lia.
  rewrite firstn_app.
  replace (8 - List.length bytes)%nat with 0%nat
    by (unfold byteLength in Hlen; lia).
  cbn [firstn]. rewrite app_nil_r. assumption.
Qed.

Lemma parsePNG_app (bytes tail : Uint8Array) (d : ParseResult) :
  parsePNG bytes = Normal (Some d) ->
  parsePNG (bytes ++ tail) = Normal (Some d).
Proof.
  intros H. apply parsePNG_Some in H. destruct H as (Hhdr & ->).
  rewrite (parsePNG_match _ (pngHeader_app bytes tail Hhdr)).
  destruct Hhdr as (_ & Hlen & _).
  rewrite !u32BE_app_l by lia. reflexivity.
Qed.

(** ** Fill bytes and well-formed segments *)

Lemma byteAt_repeat_FF (k : nat) (rest : Uint8Array) (j : Z) :
  0 <= j < Z.of_nat k -> byteAt (repeat xff k ++ rest) j = 0xFF.
Proof.
  intros Hj. unfold byteAt.
  rewrite nth_error_app1 by (rewrite repeat_length; lia).
  rewrite nth_error_repeat by lia. reflexivity.
Qed.

Lemma byteLength_repeat (b : byte) (k : nat) :
  byteLength (repeat b k) = Z.of_nat k.
Proof. unfold byteLength. rewrite repeat_length. reflexivity. Qed.

(** A marker preceded by [k] fill bytes. *)
Lemma atMarker_fill (pre rest : Uint8Array) (k : nat) (m : byte) :
  byteVal m <> 0xFF ->
  atMarker (pre ++ repeat xff k ++ xff :: m :: rest)
           (byteLength pre) (byteLength pre + Z.of_nat k) (byteVal m).
Proof.
  intros Hm. pose proof (byteLength_nonneg pre) as Hpre.
  pose proof (byteLength_nonneg rest) as Hrest.
  set (view := pre ++ repeat xff k ++ xff :: m :: rest).
  assert (Hview : view = (pre ++ repeat xff k) ++ xff :: m :: rest).
  { unfold view. rewrite <- app_assoc. reflexivity. }
  assert (Hmid : byteLength (pre ++ repeat xff k)
                 = byteLength pre + Z.of_nat k).
  { rewrite byteLength_app, byteLength_repeat. reflexivity. }
  assert (Hsize : byteLength view = byteLength pre + Z.of_nat k + 2
                                    + byteLength rest).
  { rewrite Hview, byteLength_app, Hmid. unfold byteLength.
    cbn [List.length]. lia. }
  assert (Hmk : byteAt view (byteLength pre + Z.of_nat k + 1) = byteVal m).
  { rewrite Hview, <- Hmid, byteAt_app_r by lia. reflexivity. }
  rewrite <- Hmk. apply atMarker_run.
  - lia.
  - lia.
  - intros i Hi.
    destruct (Z.eq_dec i (byteLength pre + Z.of_nat k)) as [->|Hne].
    + pose proof (byteAt_app_r (pre ++ repeat xff k) (xff :: m :: rest) 0) as E.
      rewrite Hmid, Z.add_0_r in E. rewrite Hview, E by lia. reflexivity.
    + unfold view.
      replace i with (byteLength pre + (i - byteLength pre)) by lia.
      rewrite byteAt_app_r by lia. apply byteAt_repeat_FF. lia.
  - rewrite Hmk. assumption.
Qed.

(** The scan steps over a run of well-formed segments, whatever comes
    before and after them. *)
Lemma reaches_segments (segs : list (list byte)) :
  Forall skippedSegment segs ->
  forall pre rest : Uint8Array,
    reaches (pre ++ List.concat segs ++ rest)
            (byteLength pre) (byteLength (pre ++ List.concat segs)).
Proof.
  induction 1 as [|seg segs Hseg _ IH]; intros pre rest.
  - cbn [List.concat]. rewrite app_nil_r. apply reaches_here.
  - destruct Hseg as (k & m & hi & lo & payload & -> & Hff & Heoi & Hsof & Hlen).
    cbn [List.concat].
    set (seg := repeat xff k ++ [xff; m; hi; lo]%byte ++ payload).
    set (view := pre ++ (seg ++ List.concat segs) ++ rest).
    set (after := payload ++ List.concat segs ++ rest).
    assert (Hview : view = (pre ++ seg) ++ List.concat segs ++ rest).
    { unfold view. rewrite <- !app_assoc. reflexivity. }
    assert (Hview' : view = pre ++ repeat xff k ++ xff :: m :: hi :: lo :: after).
    { unfold view, seg, after. cbn [app]. rewrite <- !app_assoc.
      cbn [app]. reflexivity. }
    assert (Hview'' : view = (pre ++ repeat xff k) ++ xff :: m :: hi :: lo :: after).
    { rewrite Hview', <- app_assoc. reflexivity. }
    pose proof (byteLength_nonneg pre) as Hpre.
    pose proof (byteLength_nonneg after) as Hafter.
    assert (Hmid : byteLength (pre ++ repeat xff k)
                   = byteLength pre + Z.of_nat k).
    { rewrite byteLength_app, byteLength_repeat. reflexivity. }
    assert (Hsize : byteLength view
                    = byteLength pre + Z.of_nat k + 4 + byteLength after).
    { rewrite Hview'', byteLength_app, Hmid. unfold byteLength.
      cbn [List.length]. lia. }
    assert (Hat : atMarker view (byteLength pre)
                           (byteLength pre + Z.of_nat k) (byteVal m)).
    { rewrite Hview'. apply atMarker_fill. assumption. }
    assert (Hu16 : u16BE view (byteLength pre + Z.of_nat k + 2)
                   = 2 + Z.of_nat (List.length payload)).
    { unfold u16BE. rewrite Hview'', <- Hmid.
      replace (byteLength (pre ++ repeat xff k) + 2 + 1)
        with (byteLength (pre ++ repeat xff k) + 3) by lia.
      rewrite !byteAt_app_r by lia. rewrite <- Hlen. reflexivity. }
    apply (reaches_turn view _ (byteLength (pre ++ seg))).
    + lia.
    + rewrite (scanBody_marker _ _ _ _ Hat).
      rewrite handleMarker_skip; try (rewrite Hu16); try assumption; try lia.
      f_equal. f_equal. rewrite byteLength_app. unfold seg, byteLength.
      rewrite !length_app, repeat_length. cbn [List.length]. lia.
    + replace (byteLength (pre ++ seg ++ List.concat segs))
        with (byteLength ((pre ++ seg) ++ List.concat segs))
        by (rewrite <- app_assoc; reflexivity).
      rewrite Hview. apply IH.
Qed.

(** The scan walks byte by byte over bytes that are not [FF]. *)
Lemma reaches_no_FF (view : Uint8Array) (n : nat) (o : Z) :
  0 <= o -> o + Z.of_nat n <= byteLength view ->
  (forall i, o <= i < o + Z.of_nat n -> byteAt view i <> 0xFF) ->
  reaches view o (o + Z.of_nat n).
Proof.
  revert o. induction n as [|n IH]; intros o Ho Hlen Hno.
  - replace (o + Z.of_nat 0) with o by lia. apply reaches_here.
  - apply (reaches_turn view o (o + 1)).
    + lia.
    + apply scanBody_not_FF; [lia|]. apply Hno. lia.
    + replace (o + Z.of_nat (S n)) with (o + 1 + Z.of_nat n) by lia.
      apply IH; try lia. intros i Hi. apply Hno. lia.
Qed.

Lemma u32BE_range (view : Uint8Array) (off : Z) :
  0 <= u32BE view off < 4294967296.
Proof.
  unfold u32BE.
  pose proof (byteAt_range view off). pose proof (byteAt_range view (off + 1)).
  pose proof (byteAt_range view (off + 2)).
  pose proof (byteAt_range view (off + 3)). lia.
Qed.

Lemma has_SOF_not_FF (m : Z) : has JPEG_SOF_MARKERS m = true -> m <> 0xFF.
Proof. intros H ->. discriminate H. Qed.

Lemma parsePNG_terminates_Normal (bytes : Uint8Array) :
  exists p, parsePNG bytes = Normal p.
Proof.
  destruct (parsePNG_returns bytes) as [-> | ->]; eexists; reflexivity.
Qed.

(** ** The result record *)

Lemma inspect_dimensions (bytes : Uint8Array) (r : InspectionResult) :
  inspectImageBuffer bytes = Normal r ->
  (format r = unknown /\ width r = None /\ height r = None)
  \/ (format r = png /\
      exists w h, width r = Some w /\ height r = Some h
                  /\ 0 <= w < 4294967296 /\ 0 <= h < 4294967296)
  \/ (format r = jpeg /\
      exists w h, width r = Some w /\ height r = Some h
                  /\ 0 <= w < 65536 /\ 0 <= h < 65536).
Proof.
  intros H. apply inspect_Normal in H.
  destruct H as [(d & Hp & ->)|[(d & _ & Hj & ->)|(_ & _ & ->)]].
  - right. left. split; [reflexivity|].
    apply parsePNG_Some in Hp. destruct Hp as (_ & ->).
    eexists _, _. cbn. repeat split; try apply u32BE_range.
  - right. right. split; [reflexivity|].
    destruct (parseJPEG_Some_inv _ _ Hj) as (_ & o & _ & Hbody).
    destruct (scanBody_Some_inv _ _ _ Hbody) as (p & m & _ & _ & _ & _ & ->).
    eexists _, _. cbn. repeat split; try apply u16BE_range.
  - left. repeat split.
Qed.

Lemma inspect_size (bytes : Uint8Array) (r : InspectionResult) :
  inspectImageBuffer bytes = Normal r -> size r = byteLength bytes.
Proof.
  intros H. apply inspect_Normal in H.
  destruct H as [(d & _ & ->)|[(d & _ & _ & ->)|(_ & _ & ->)]]; reflexivity.
Qed.

(** Width and height come together: both null for unknown, both
    numbers otherwise, below 2^32 for png and below 2^16 for jpeg. *)
Theorem inspect_dimensions_together (bytes : Uint8Array) (r : InspectionResult) :
  inspectImageBuffer bytes = Normal r ->
  (format r = unknown /\ width r = None /\ height r = None)
  \/ (format r = png /\
      exists w h, width r = Some w /\ height r = Some h
                  /\ 0 <= w < 4294967296 /\ 0 <= h < 4294967296)
  \/ (format r = jpeg /\
      exists w h, width r = Some w /\ height r = Some h
                  /\ 0 <= w < 65536 /\ 0 <= h < 65536).
Proof.
  intros H. apply inspect_Normal in H.
  destruct H as [(d & Hp & ->)|[(d & _ & Hj & ->)|(_ & _ & ->)]].
  - right. left. split; [reflexivity|].
    apply parsePNG_Some in Hp. destruct Hp as (_ & ->).
    eexists _, _. cbn. repeat split; try apply u32BE_range.
  - right. right. split; [reflexivity|].
    destruct (parseJPEG_Some_inv _ _ Hj) as (_ & o & _ & Hbody).
    destruct (scanBody_Some_inv _ _ _ Hbody) as (p & m & _ & _ & _ & _ & ->).
    eexists _, _. cbn. repeat split; try apply u16BE_range.
  - left. repeat split.
Qed.

Lemma inspect_dimensions_witness :
  exists w h, width (mkInspection jpeg (Some 200) (Some 100) 11) = Some w
              /\ height (mkInspection jpeg (Some 200) (Some 100) 11) = Some h
              /\ 0 <= w < 65536 /\ 0 <= h < 65536.
Proof.
  destruct (inspect_dimensions_together jpegScenario _ eq_refl)
    as [(Hf & _)|[(Hf & _)|(_ & H)]]; [discriminate Hf|discriminate Hf|exact H].
Defined.

(** ** When the JPEG detector matches *)

(** [parseJPEG] returns dimensions exactly when the buffer starts with
    [FF D8] and the scan, turn after turn, comes to a SOF marker whose
    length field is at least 2 and whose five payload bytes are in the
    buffer; the dimensions are the ones of that payload. *)
Theorem parseJPEG_match_iff (bytes : Uint8Array) (d : ParseResult) :
  parseJPEG bytes = Normal (Some d)
  <-> (startsWithSOI bytes /\
       exists o p m,
         reaches bytes 2 o /\ atMarker bytes o p m
         /\ has JPEG_SOF_MARKERS m = true
         /\ 2 <= u16BE bytes (p + 2) /\ p + 9 <= byteLength bytes
         /\ d = mkParse jpeg (u16BE bytes (p + 7)) (u16BE bytes (p + 5))).
Proof.
  split.
  - intros H. destruct (parseJPEG_Some_inv _ _ H) as (Hsoi & o & Hreach & Hbody).
    split; [assumption|].
    destruct (scanBody_Some_inv _ _ _ Hbody) as (p & m & Hat & Hrest).
    exists o, p, m. tauto.
  - intros (Hsoi & o & p & m & Hreach & Hat & Hsof & Hseg & Hfit & ->).
    apply (parseJPEG_SOF bytes o p m); assumption.
Qed.

(** ** When the parser raises *)

Lemma scanBody_FF_to_end (view : Uint8Array) (o : Z) :
  0 <= o < byteLength view ->
  (forall i, o <= i < byteLength view -> byteAt view i = 0xFF) ->
  scanBody view o = Throw RangeError.
Proof.
  intros Hin Hrun. unfold scanBody.
  rewrite getUint8_in, (Hrun o) by lia. cbn [bind negb Z.eqb Pos.eqb].
  rewrite skipPadding_all_FF; [reflexivity|lia| | |].
  - unfold byteLength. lia.
  - unfold byteLength in Hin. lia.
  - intros i Hi. apply Hrun. lia.
Qed.

Lemma inspect_Throw_iff_parseJPEG (bytes : Uint8Array) (e : JsError) :
  inspectImageBuffer bytes = Throw e <-> parseJPEG bytes = Throw e.
Proof.
  split.
  - intros H. unfold inspectImageBuffer in H.
    destruct (parsePNG_returns bytes) as [Hp|Hp]; rewrite Hp in H;
      cbn [bind] in H; [|discriminate].
    destruct (parseJPEG bytes) as [[j|]| |]; cbn [bind] in H;
      try discriminate. inversion H. reflexivity.
  - intros H.
    destruct (parseJPEG_inv bytes) as [[_ E]|(Hsoi & _)]; [congruence|].
    apply inspect_throw; [apply parsePNG_SOI|]; assumption.
Qed.

(** [inspectImageBuffer] raises in two situations only, and always in
    them: the buffer starts with [FF D8] and the scan comes to a loop
    head from which every byte up to the end is [FF], or to a SOF marker
    with a length field of at least 2 followed by exactly four more
    bytes.  The error is a [RangeError]. *)
Theorem inspect_raises_iff (bytes : Uint8Array) (e : JsError) :
  inspectImageBuffer bytes = Throw e
  <-> (e = RangeError /\ startsWithSOI bytes /\
       exists o,
         reaches bytes 2 o /\ o < byteLength bytes
         /\ ((forall i, o <= i < byteLength bytes -> byteAt bytes i = 0xFF)
             \/ (exists p m,
                    atMarker bytes o p m /\ has JPEG_SOF_MARKERS m = true
                    /\ 2 <= u16BE bytes (p + 2)
                    /\ byteLength bytes = p + 8))).
Proof.
  rewrite inspect_Throw_iff_parseJPEG. split.
  - intros H.
    destruct (parseJPEG_inv bytes) as [[_ E]|(Hsoi & o & Hreach & Hend)];
      [congruence|].
    destruct Hend as [[_ E]|[(_ & r & _ & E)|(Hlt & e' & Hbody & E)]];
      try congruence.
    assert (e' = e) by congruence. subst e'.
    pose proof (reaches_le _ _ _ Hreach) as Hle.
    destruct (scanBody_Throw_inv bytes o e ltac:(lia) Hbody) as (-> & Hwhy).
    split; [reflexivity|]. split; [assumption|].
    exists o. auto.
  - intros (-> & Hsoi & o & Hreach & Hlt & Hwhy).
    pose proof (reaches_le _ _ _ Hreach) as Hle.
    apply (parseJPEG_Throw bytes o); try assumption.
    destruct Hwhy as [Hrun|(p & m & Hat & Hsof & Hseg & Hlen)].
    + apply scanBody_FF_to_end; [lia|assumption].
    + pose proof (atMarker_inv _ _ _ _ Hat) as (_ & _ & Hp & _).
      rewrite (scanBody_marker _ _ _ _ Hat).
      apply handleMarker_SOF_throws; try assumption; lia.
Qed.

(** A buffer shorter than 24 bytes that is shorter than 4 bytes or does
    not start with [FF D8] is unknown, with its length as size; the
    empty buffer is one of them. *)
Theorem inspect_short_buffer (bytes : Uint8Array) :
  byteLength bytes < 24 -> ~ startsWithSOI bytes ->
  inspectImageBuffer bytes
  = Normal (mkInspection unknown None None (byteLength bytes)).
Proof.
  intros Hshort Hno. apply inspect_unknown.
  - apply parsePNG_short. assumption.
  - apply parseJPEG_no_SOI. assumption.
Qed.

Lemma inspect_short_witness :
  inspectImageBuffer [] = Normal (mkInspection unknown None None 0).
Proof.
  apply (inspect_short_buffer []).
  - reflexivity.
  - intros (H & _). vm_compute in H. apply H. reflexivity.
Defined.

(** The two detectors never both match: what [parsePNG] accepts,
    [parseJPEG] answers with null (and does not raise on it), and what
    [parseJPEG] accepts, [parsePNG] answers with null. *)
Theorem detectors_exclusive (bytes : Uint8Array) (d : ParseResult) :
  (parsePNG bytes = Normal (Some d) -> parseJPEG bytes = Normal None)
  /\ (parseJPEG bytes = Normal (Some d) -> parsePNG bytes = Normal None).
Proof.
  split.
  - intros H. apply parsePNG_Some in H. destruct H as ((Hsig & _) & _).
    apply parseJPEG_no_SOI. intros (_ & H0 & _).
    destruct bytes as [|b bytes]; [discriminate Hsig|].
    injection Hsig as -> _. discriminate H0.
  - intros H. apply parseJPEG_Some_inv in H. destruct H as (Hsoi & _).
    apply parsePNG_SOI. assumption.
Qed.

Lemma detectors_exclusive_witness :
  parseJPEG pngScenario = Normal None.
Proof.
  exact (proj1 (detectors_exclusive pngScenario (mkParse png 256 200)) eq_refl).
Defined.

(** ** Longer buffers, well-formed streams *)

(** A png or jpeg answer depends on the bytes read only: appending any
    bytes to the buffer changes the [size] and nothing else. *)
Theorem inspect_prefix_stable (bytes tail : Uint8Array) (r : InspectionResult) :
  inspectImageBuffer bytes = Normal r -> format r <> unknown ->
  inspectImageBuffer (bytes ++ tail)
  = Normal (mkInspection (format r) (width r) (height r)
                         (byteLength bytes + byteLength tail)).
Proof.
  intros H Hfmt. apply inspect_Normal in H.
  destruct H as [(d & Hp & ->)|[(d & _ & Hj & ->)|(_ & _ & ->)]];
    cbn [format width height] in *; [| |contradiction].
  - rewrite (inspect_png _ d (parsePNG_app bytes tail d Hp)).
    rewrite byteLength_app. reflexivity.
  - pose proof (parseJPEG_app bytes tail d Hj) as Hj'.
    rewrite (inspect_jpeg (bytes ++ tail) d).
    + rewrite byteLength_app. reflexivity.
    + apply parseJPEG_Some_inv in Hj'. destruct Hj' as (Hsoi & _).
      apply parsePNG_SOI. assumption.
    + assumption.
Qed.

Lemma inspect_prefix_witness :
  inspectImageBuffer (jpegScenario ++ [xff; xd9]%byte)
  = Normal (mkInspection jpeg (Some 200) (Some 100) 13).
Proof.
  refine (inspect_prefix_stable jpegScenario [xff; xd9]%byte
            (mkInspection jpeg (Some 200) (Some 100) 11) eq_refl _).
  discriminate.
Defined.

(** A stream of [FF D8], any number of well-formed segments that are
    neither SOF nor [D9] (each after any number of fill bytes), and a
    frame header is jpeg with the height and width of that header,
    whatever follows. *)
Theorem jpeg_stream_dimensions
        (segs : list (list byte)) (k : nat)
        (m hi lo pr h1 h0 w1 w0 : byte) (tail : Uint8Array) :
  Forall skippedSegment segs ->
  has JPEG_SOF_MARKERS (byteVal m) = true ->
  2 <= byteVal hi * 256 + byteVal lo ->
  let bytes := [xff; xd8]%byte ++ List.concat segs
               ++ frameHeader k m hi lo pr h1 h0 w1 w0 ++ tail in
  inspectImageBuffer bytes
  = Normal (mkInspection jpeg (Some (byteVal w1 * 256 + byteVal w0))
                              (Some (byteVal h1 * 256 + byteVal h0))
                              (byteLength bytes)).
Proof.
  intros Hsegs Hsof Hseg bytes.
  set (after := [hi; lo; pr; h1; h0; w1; w0]%byte ++ tail).
  set (pre := [xff; xd8]%byte ++ List.concat segs).
  assert (Hbytes : bytes = pre ++ repeat xff k ++ xff :: m :: after).
  { unfold bytes, pre, after, frameHeader.
    rewrite <- !app_assoc. cbn [app]. reflexivity. }
  assert (Hbytes' : bytes = (pre ++ repeat xff k) ++ xff :: m :: after).
  { rewrite Hbytes, <- app_assoc. reflexivity. }
  assert (Hmid : byteLength (pre ++ repeat xff k)
                 = byteLength pre + Z.of_nat k).
  { rewrite byteLength_app, byteLength_repeat. reflexivity. }
  assert (Hpre : 2 <= byteLength pre).
  { unfold pre. rewrite byteLength_app.
    pose proof (byteLength_nonneg (List.concat segs)).
    change (byteLength [xff; xd8]%byte) with 2. lia. }
  pose proof (byteLength_nonneg tail) as Htail.
  assert (Hsize : byteLength bytes
                  = byteLength pre + Z.of_nat k + 9 + byteLength tail).
  { rewrite Hbytes', byteLength_app, Hmid. unfold after, byteLength.
    cbn [List.length app]. lia. }
  assert (Hsoi : startsWithSOI bytes).
  { unfold startsWithSOI. rewrite Hbytes, !byteAt_app_l by lia.
    rewrite <- Hbytes. unfold pre. repeat split; try reflexivity. lia. }
  assert (Hreach : reaches bytes 2 (byteLength pre)).
  { pose proof (reaches_segments segs Hsegs [xff; xd8]%byte
                  (frameHeader k m hi lo pr h1 h0 w1 w0 ++ tail)) as Hr.
    exact Hr. }
  assert (Hat : atMarker bytes (byteLength pre)
                         (byteLength pre + Z.of_nat k) (byteVal m)).
  { rewrite Hbytes. apply atMarker_fill. apply has_SOF_not_FF. assumption. }
  assert (Hrd : forall j, 0 <= j ->
              byteAt bytes (byteLength pre + Z.of_nat k + (2 + j))
              = byteAt after j).
  { intros j Hj. rewrite Hbytes', <- Hmid.
    rewrite (byteAt_app_r (pre ++ repeat xff k)) by lia.
    unfold byteAt. replace (Z.to_nat (2 + j)) with (S (S (Z.to_nat j))) by lia.
    reflexivity. }
  assert (Hu : forall j, 0 <= j ->
             u16BE bytes (byteLength pre + Z.of_nat k + (2 + j))
             = u16BE after j).
  { intros j Hj. unfold u16BE. rewrite Hrd by lia.
    replace (byteLength pre + Z.of_nat k + (2 + j) + 1)
      with (byteLength pre + Z.of_nat k + (2 + (j + 1))) by lia.
    rewrite Hrd by lia. reflexivity. }
  rewrite (inspect_jpeg bytes
             (mkParse jpeg (byteVal w1 * 256 + byteVal w0)
                           (byteVal h1 * 256 + byteVal h0))).
  - reflexivity.
  - apply parsePNG_SOI. assumption.
  - rewrite (parseJPEG_SOF bytes _ _ _ Hsoi Hreach Hat Hsof).
    + replace (byteLength pre + Z.of_nat k + 7)
        with (byteLength pre + Z.of_nat k + (2 + 5)) by lia.
      replace (byteLength pre + Z.of_nat k + 5)
        with (byteLength pre + Z.of_nat k + (2 + 3)) by lia.
      rewrite !Hu by lia. reflexivity.
    + replace (byteLength pre + Z.of_nat k + 2)
        with (byteLength pre + Z.of_nat k + (2 + 0)) by lia.
      rewrite Hu by lia. exact Hseg.
    + lia.
Qed.

Lemma jpeg_stream_witness :
  inspectImageBuffer
    ([xff; xd8]%byte
     ++ List.concat [[xff; xff; xe0; x00; x04; x4a; x46]%byte;
                     [xff; xdb; x00; x02]%byte]
     ++ frameHeader 2 xc2 x00 x11 x08 x01 x2c x01 x90 ++ [])
  = Normal (mkInspection jpeg (Some 400) (Some 300) 24).
Proof.
  refine (jpeg_stream_dimensions
            [[xff; xff; xe0; x00; x04; x4a; x46]%byte; [xff; xdb; x00; x02]%byte]
            2 xc2 x00 x11 x08 x01 x2c x01 x90 [] _ _ _).
  - repeat constructor.
    + exists 1%nat, xe0, x00, x04, [x4a; x46]%byte.
      repeat split; try reflexivity; discriminate.
    + exists 0%nat, xdb, x00, x02, [].
      repeat split; try reflexivity; discriminate.
  - reflexivity.
  - vm_compute. discriminate.
Defined.

(** A buffer that starts with [FF D8] and has no further [FF] byte is
    unknown: the scan runs to the end without finding a marker. *)
Theorem jpeg_no_marker_unknown (bytes : Uint8Array) :
  startsWithSOI bytes ->
  (forall i, 2 <= i < byteLength bytes -> byteAt bytes i <> 0xFF) ->
  parseJPEG bytes = Normal None
  /\ inspectImageBuffer bytes
     = Normal (mkInspection unknown None None (byteLength bytes)).
Proof.
  intros Hsoi Hno.
  assert (Hj : parseJPEG bytes = Normal None).
  { destruct Hsoi as (Hlen & H0 & H1).
    assert (Hsoi : startsWithSOI bytes) by (unfold startsWithSOI; auto).
    rewrite parseJPEG_SOI by assumption.
    pose proof (reaches_no_FF bytes (Z.to_nat (byteLength bytes - 2)) 2) as Hr.
    replace (2 + Z.of_nat (Z.to_nat (byteLength bytes - 2)))
      with (byteLength bytes) in Hr by lia.
    rewrite (scan_reaches _ _ _ _ (Hr ltac:(lia) ltac:(lia) Hno))
      by (apply enough_SOI; assumption).
    destruct bytes as [|b bytes];
      [unfold byteLength in Hlen; simpl in Hlen; lia|].
    cbn [List.length]. rewrite scan_S.
    destruct (Z.ltb_spec (byteLength (b :: bytes)) (byteLength (b :: bytes)));
      [lia|reflexivity]. }
  split; [assumption|].
  apply inspect_unknown; [apply parsePNG_SOI|]; assumption.
Qed.

Lemma jpeg_no_marker_witness :
  inspectImageBuffer [xff; xd8; x00; x01; x02]%byte
  = Normal (mkInspection unknown None None 5).
Proof.
  refine (proj2 (jpeg_no_marker_unknown [xff; xd8; x00; x01; x02]%byte _ _)).
  - repeat split. vm_compute. discriminate.
  - intros i Hi. change (byteLength [xff; xd8; x00; x01; x02]%byte) with 5 in Hi.
    assert (Hc : i = 2 \/ i = 3 \/ i = 4) by lia.
    destruct Hc as [E|[E|E]]; subst i; vm_compute; discriminate.
Defined.

(** * Properties of the helpers and callers *)

(** ** Strings *)

Lemma jsLength_nonneg (s : string) : 0 <= jsLength s.
Proof. unfold jsLength. lia. Qed.

Lemma string_length_append (a b : string) :
  String.length (a ++ b) = (String.length a + String.length b)%nat.
Proof. induction a as [|c a IH]; cbn; [reflexivity|rewrite IH; reflexivity]. Qed.

Lemma jsLength_append (a b : string) :
  jsLength (a ++ b) = jsLength a + jsLength b.
Proof.
  unfold jsLength. rewrite string_length_append. lia.
Qed.

Lemma append_empty_r (s : string) : (s ++ "")%string = s.
Proof. induction s as [|c s IH]; cbn; [reflexivity|rewrite IH; reflexivity]. Qed.

Lemma append_assoc (a b c : string) :
  ((a ++ b) ++ c)%string = (a ++ (b ++ c))%string.
Proof. induction a as [|x a IH]; cbn; [reflexivity|rewrite IH; reflexivity]. Qed.

Lemma indexOfFrom_shift (c : ascii) (s : string) (i : Z) :
  indexOfFrom c s i = -1 \/ i <= indexOfFrom c s i < i + jsLength s.
Proof.
  revert i. induction s as [|a s IH]; intros i; cbn [indexOfFrom].
  - left. reflexivity.
  - unfold jsLength. cbn [String.length].
    destruct (Ascii.eqb a c); [right; lia|].
    destruct (IH (i + 1)) as [E|E]; [left; assumption|right].
    unfold jsLength in E. lia.
Qed.

Lemma indexOfFrom_absent (c : ascii) (s : string) (i j : Z) :
  indexOfFrom c s i = -1 -> 0 <= i -> indexOfFrom c s j = -1.
Proof.
  revert i j. induction s as [|a s IH]; intros i j H Hi; cbn [indexOfFrom] in *.
  - reflexivity.
  - destruct (Ascii.eqb a c); [lia|]. apply (IH (i + 1)); [assumption|lia].
Qed.

(** The first occurrence: a prefix without the character, then it. *)
Lemma indexOfFrom_app (c : ascii) (pre rest : string) (i : Z) :
  indexOfFrom c pre 0 = -1 ->
  indexOfFrom c (pre ++ String c rest) i = i + jsLength pre.
Proof.
  revert i. induction pre as [|a pre IH]; intros i H; cbn [indexOfFrom append].
  - rewrite Ascii.eqb_refl. unfold jsLength. cbn. lia.
  - cbn [indexOfFrom] in H. destruct (Ascii.eqb a c); [lia|].
    rewrite IH by (apply (indexOfFrom_absent c pre 1); [assumption|lia]).
    unfold jsLength. cbn [String.length]. lia.
Qed.

Lemma indexOfFrom_app_absent (c : ascii) (a b : string) (i : Z) :
  indexOfFrom c a 0 = -1 -> indexOfFrom c b 0 = -1 -> 0 <= i ->
  indexOfFrom c (a ++ b) i = -1.
Proof.
  revert i. induction a as [|x a IH]; intros i Ha Hb Hi; cbn [indexOfFrom append].
  - apply (indexOfFrom_absent c b 0); [assumption|lia].
  - cbn [indexOfFrom] in Ha. destruct (Ascii.eqb x c); [lia|].
    apply IH; try assumption; try lia.
    apply (indexOfFrom_absent c a 1); [assumption|lia].
Qed.

Lemma noComma_append (a b : string) :
  noComma a -> noComma b -> noComma (a ++ b).
Proof.
  unfold noComma, indexOf. intros Ha Hb.
  apply indexOfFrom_app_absent; try assumption. lia.
Qed.

Lemma dropChars_append (pre rest : string) :
  dropChars (String.length pre) (pre ++ rest) = rest.
Proof. induction pre as [|a pre IH]; cbn; [destruct rest|]; auto. Qed.

Lemma payloadOf_noComma (s : string) : noComma s -> payloadOf s = s.
Proof. unfold noComma, payloadOf. intros ->. reflexivity. Qed.

(** A data URI: the payload starts right after the first comma. *)
Lemma payloadOf_data_uri (pre payload : string) :
  noComma pre -> payloadOf (pre ++ "," ++ payload) = payload.
Proof.
  unfold noComma, payloadOf, indexOf. intros Hpre.
  change ("," ++ payload)%string with (String "," payload).
  rewrite indexOfFrom_app by assumption.
  pose proof (jsLength_nonneg pre) as Hlen.
  destruct (Z.geb_spec (0 + jsLength pre) 0); [|lia].
  unfold slice. destruct (Z.ltb_spec (0 + jsLength pre + 1) 0); [lia|].
  rewrite jsLength_append.
  assert (Hp : jsLength (String "," payload) = 1 + jsLength payload).
  { unfold jsLength. cbn [String.length]. lia. }
  rewrite Hp. pose proof (jsLength_nonneg payload).
  rewrite Z.min_l by lia.
  replace (Z.to_nat (0 + jsLength pre + 1)) with (String.length (pre ++ ","))
    by (rewrite string_length_append; unfold jsLength; cbn; lia).
  replace (pre ++ String "," payload)%string with ((pre ++ ",") ++ payload)%string
    by (rewrite append_assoc; reflexivity).
  apply dropChars_append.
Qed.

Lemma endsWith_length (s suffix : string) :
  endsWith s suffix = true -> jsLength suffix <= jsLength s.
Proof.
  unfold endsWith, jsLength.
  destruct (Nat.leb_spec (String.length suffix) (String.length s));
    [lia|discriminate].
Qed.

Lemma string_length_1 (s : string) :
  String.length s = 1%nat -> endsWith s "=" = true -> s = "="%string.
Proof.
  destruct s as [|a [|b s]]; cbn [String.length]; try lia.
  intros _ H. unfold endsWith in H. cbn in H.
  destruct (Ascii.eqb_spec a "="%char) as [E|E]; [|discriminate].
  rewrite E. reflexivity.
Qed.

Lemma string_length_2 (s : string) :
  String.length s = 2%nat -> endsWith s "==" = true -> s = "=="%string.
Proof.
  destruct s as [|a [|b [|c s]]]; cbn [String.length]; try lia.
  intros _ H. unfold endsWith in H. cbn in H.
  destruct (Ascii.eqb_spec a "="%char) as [Ea|Ea]; [|discriminate].
  destruct (Ascii.eqb_spec b "="%char) as [Eb|Eb]; [|discriminate].
  rewrite Ea, Eb. reflexivity.
Qed.

Lemma lowerChar_idempotent (c : ascii) : lowerChar (lowerChar c) = lowerChar c.
Proof. destruct c as [[] [] [] [] [] [] [] []]; reflexivity. Qed.

Lemma toLowerCase_idempotent (s : string) :
  toLowerCase (toLowerCase s) = toLowerCase s.
Proof.
  induction s as [|c s IH]; cbn [toLowerCase]; [reflexivity|].
  rewrite lowerChar_idempotent, IH. reflexivity.
Qed.

Lemma toLowerCase_empty (s : string) : toLowerCase s = ""%string -> s = ""%string.
Proof. destruct s; cbn; [reflexivity|discriminate]. Qed.

(** ** index.js *)

(** [normalizeFormat] is idempotent, its result is in lower case, and
    the result is ["jpg"] exactly for the spellings of jpeg and jpg in
    any case, so the ["jpeg"] of the header parser becomes ["jpg"]. *)
Theorem normalizeFormat_idempotent (s : string) :
  normalizeFormat (normalizeFormat s) = normalizeFormat s
  /\ toLowerCase (normalizeFormat s) = normalizeFormat s
  /\ (normalizeFormat s = "jpg"%string
      <-> toLowerCase s = "jpeg"%string \/ toLowerCase s = "jpg"%string).
Proof.
  unfold normalizeFormat.
  destruct (String.eqb_spec s "") as [->|Hne]; [cbn; intuition discriminate|].
  destruct (String.eqb_spec (toLowerCase s) "jpeg") as [E1|E1];
    [cbn; rewrite E1; intuition|].
  destruct (String.eqb_spec (toLowerCase s) "jpg") as [E2|E2];
    [cbn; rewrite E2; intuition|].
  cbn [orb].
  destruct (String.eqb_spec (toLowerCase s) "png") as [E3|E3];
    [cbn; intuition discriminate|].
  rewrite toLowerCase_idempotent.
  destruct (String.eqb_spec (toLowerCase s) "") as [E0|E0];
    [apply toLowerCase_empty in E0; contradiction|].
  destruct (String.eqb_spec (toLowerCase s) "jpeg"); [contradiction|].
  destruct (String.eqb_spec (toLowerCase s) "jpg"); [contradiction|].
  destruct (String.eqb_spec (toLowerCase s) "png"); [contradiction|].
  cbn [orb]. intuition.
Qed.

Lemma dropChars_split (n : nat) (s : string) :
  exists pre, s = (pre ++ dropChars n s)%string.
Proof.
  revert s. induction n as [|n IH]; intros s.
  - exists ""%string. reflexivity.
  - destruct s as [|a s]; [exists ""%string; reflexivity|].
    destruct (IH s) as (pre & E). exists (String a pre).
    cbn [dropChars append]. rewrite <- E. reflexivity.
Qed.

Lemma endsWith_iff (s suffix : string) :
  endsWith s suffix = true <-> exists pre, s = (pre ++ suffix)%string.
Proof.
  unfold endsWith. split.
  - destruct (String.length suffix <=? String.length s)%nat; [|discriminate].
    intros H. apply String.eqb_eq in H.
    destruct (dropChars_split (String.length s - String.length suffix) s)
      as (pre & E).
    exists pre. rewrite H in E. assumption.
  - intros (pre & ->). rewrite string_length_append.
    destruct (Nat.leb_spec (String.length suffix)
                           (String.length pre + String.length suffix));
      [|lia].
    replace (String.length pre + String.length suffix - String.length suffix)%nat
      with (String.length pre) by lia.
    rewrite dropChars_append. apply String.eqb_refl.
Qed.

Lemma endsWith_eqeq (s : string) :
  endsWith s "==" = true -> endsWith s "=" = true.
Proof.
  rewrite !endsWith_iff. intros (pre & ->).
  exists (pre ++ "=")%string. rewrite append_assoc. reflexivity.
Qed.

Lemma base64ByteSize_payload (base64 : string) :
  base64ByteSize base64 =
    if String.eqb base64 "" then 0
    else if String.eqb (payloadOf base64) "" then 0
    else jsLength (payloadOf base64) * 3 / 4
         - (if endsWith (payloadOf base64) "==" then 2
            else if endsWith (payloadOf base64) "=" then 1 else 0).
Proof. reflexivity. Qed.

Lemma jsLength_empty (s : string) : jsLength s = 0 -> s = ""%string.
Proof. destruct s; [reflexivity|unfold jsLength; cbn; lia]. Qed.

(** The size computed from the text alone is right for padded base64:
    on the text of [n] bytes, with or without a data URI prefix, it is
    [n]. *)
Theorem base64ByteSize_padded (n : Z) (s : string) :
  0 <= n -> noComma s -> paddedBase64Length n s ->
  base64ByteSize s = n
  /\ forall pre, noComma pre -> base64ByteSize (pre ++ "," ++ s) = n.
Proof.
  intros Hn Hs (Hlen & H0 & H2 & H1).
  assert (Hsize : (if String.eqb s "" then 0
                   else jsLength s * 3 / 4
                        - (if endsWith s "==" then 2
                           else if endsWith s "=" then 1 else 0)) = n).
  { destruct (String.eqb_spec s "") as [->|Hne].
    - change (jsLength "") with 0 in Hlen.
      assert ((n + 2) / 3 = 0) as Hq by lia.
      apply Z.div_small_iff in Hq; lia.
    - rewrite Hlen.
      assert (Hmod : n mod 3 = 0 \/ n mod 3 = 1 \/ n mod 3 = 2)
        by (pose proof (Z.mod_pos_bound n 3); lia).
      destruct Hmod as [Hm|[Hm|Hm]].
      + rewrite (H0 Hm).
        destruct (endsWith s "==") eqn:E2;
          [apply endsWith_eqeq in E2; rewrite (H0 Hm) in E2; discriminate E2|].
        clear - Hm Hn. Z.div_mod_to_equations. lia.
      + rewrite (H1 Hm). clear - Hm Hn. Z.div_mod_to_equations. lia.
      + destruct (H2 Hm) as [E1 E2]. rewrite E1, E2.
        clear - Hm Hn. Z.div_mod_to_equations. lia. }
  split.
  - rewrite base64ByteSize_payload, payloadOf_noComma by assumption.
    destruct (String.eqb_spec s ""); assumption.
  - intros pre Hpre.
    rewrite base64ByteSize_payload, payloadOf_data_uri by assumption.
    destruct (String.eqb_spec (pre ++ "," ++ s) "") as [E|_];
      [destruct pre; discriminate E|].
    assumption.
Qed.

Lemma base64ByteSize_padded_witness :
  base64ByteSize "data:text/plain;base64,SGk=" = 2.
Proof.
  refine (proj2 (base64ByteSize_padded 2 "SGk=" _ _ _)
                "data:text/plain;base64"%string _).
  - lia.
  - reflexivity.
  - repeat split; try reflexivity; vm_compute; discriminate.
  - reflexivity.
Defined.

(** The computed size is never below -1, and it is negative only when
    the payload is ["="] or ["=="]: padding without any data. *)
Theorem base64ByteSize_lower_bound (base64 : string) :
  -1 <= base64ByteSize base64
  /\ (base64ByteSize base64 < 0 ->
      payloadOf base64 = "="%string \/ payloadOf base64 = "=="%string).
Proof.
  rewrite base64ByteSize_payload.
  destruct (String.eqb base64 ""); [split; lia|].
  destruct (String.eqb_spec (payloadOf base64) "") as [|Hne]; [split; lia|].
  set (s := payloadOf base64) in *.
  assert (Hpos : 1 <= jsLength s).
  { pose proof (jsLength_nonneg s).
    destruct (Z.eq_dec (jsLength s) 0) as [E|]; [|lia].
    apply jsLength_empty in E. contradiction. }
  destruct (endsWith s "==") eqn:E2.
  - pose proof (endsWith_length _ _ E2) as Hl.
    change (jsLength "==") with 2 in Hl.
    split; [Z.div_mod_to_equations; lia|].
    intros Hneg. right. apply string_length_2; [|assumption].
    assert (jsLength s = 2) by (Z.div_mod_to_equations; lia).
    unfold jsLength in *. lia.
  - destruct (endsWith s "=") eqn:E1.
    + split; [Z.div_mod_to_equations; lia|].
      intros Hneg. left. apply string_length_1; [|assumption].
      assert (jsLength s = 1) by (Z.div_mod_to_equations; lia).
      unfold jsLength in *. lia.
    + split; [Z.div_mod_to_equations; lia|].
      intros Hneg. exfalso. Z.div_mod_to_equations. lia.
Qed.

(** ** The chunk loop of arrayBufferToBase64DataUri *)

Lemma fromCharCode_app (a b : list Z) :
  fromCharCode (a ++ b) = (fromCharCode a ++ fromCharCode b)%string.
Proof.
  unfold fromCharCode. rewrite map_app.
  induction (map (fun c => ascii_of_N (Z.to_N c)) a) as [|x l IH]; cbn;
    [reflexivity|rewrite IH; reflexivity].
Qed.

Lemma binaryLoop_whole (fuel : nat) (bytes : Uint8Array) (i : Z) (binary : string) :
  0 <= i -> Z.max 0 (byteLength bytes - i) < Z.of_nat fuel ->
  binaryLoop fuel bytes i binary
  = Some (binary ++ fromCharCode (map byteVal (skipn (Z.to_nat i) bytes)))%string.
Proof.
  revert i binary. induction fuel as [|fuel IH]; intros i binary Hi Hfuel; [lia|].
  - cbn [binaryLoop].
    destruct (Z.ltb_spec i (byteLength bytes)) as [Hlt|Hge].
    + rewrite IH by (unfold chunkSize; lia).
      rewrite append_assoc, <- fromCharCode_app, <- map_app.
      unfold subarray.
      replace (Z.to_nat (i + chunkSize - i)) with (Z.to_nat chunkSize) by lia.
      replace (Z.to_nat (i + chunkSize))
        with (Z.to_nat chunkSize + Z.to_nat i)%nat by (unfold chunkSize; lia).
      rewrite <- skipn_skipn, firstn_skipn. reflexivity.
    + rewrite skipn_all2 by (unfold byteLength in Hge; lia).
      cbn. rewrite append_empty_r. reflexivity.
Qed.

Lemma list_ascii_of_fromCharCode (bytes : Uint8Array) :
  bytesOfBinary (fromCharCode (map byteVal bytes)) = bytes.
Proof.
  unfold bytesOfBinary, fromCharCode.
  rewrite list_ascii_of_string_of_list_ascii, !map_map.
  rewrite <- (map_id bytes) at 2. apply map_ext. intros b.
  unfold byteVal. rewrite N2Z.id, <- ascii_of_byte_via_N.
  apply byte_of_ascii_of_byte.
Qed.

Section HostProperties.

Variable atob : string -> option string.
Variable btoa : string -> string.
Variable rangeErrorMessage : string.
Variable invalidCharacterMessage : string.

Lemma uint8ArrayFromBase64_payload (base64 : string) :
  uint8ArrayFromBase64 atob invalidCharacterMessage base64 =
    match atob (payloadOf base64) with
    | None => Raise (ThrownError "InvalidCharacterError" invalidCharacterMessage)
    | Some bin => Ok (bytesOfBinary bin)
    end.
Proof. reflexivity. Qed.

(** A data URI and its bare payload decode to the same bytes (or
    fail alike): the text up to the first comma is not looked at, and
    the array has one byte per character of the decoded string. *)
Theorem uint8ArrayFromBase64_data_uri (pre payload : string) :
  noComma pre -> noComma payload ->
  uint8ArrayFromBase64 atob invalidCharacterMessage (pre ++ "," ++ payload)
  = uint8ArrayFromBase64 atob invalidCharacterMessage payload
  /\ (forall bytes,
        uint8ArrayFromBase64 atob invalidCharacterMessage payload = Ok bytes ->
        exists bin, atob payload = Some bin
                    /\ byteLength bytes = jsLength bin).
Proof.
  intros Hpre Hpay. rewrite !uint8ArrayFromBase64_payload.
  rewrite payloadOf_data_uri, payloadOf_noComma by assumption.
  split; [reflexivity|].
  intros bytes H. destruct (atob payload) as [bin|]; [|discriminate].
  exists bin. split; [reflexivity|]. inversion H.
  unfold byteLength, bytesOfBinary, jsLength. rewrite length_map.
  clear. induction bin as [|c bin IH]; cbn; [reflexivity|lia].
Qed.

Lemma arrayBufferToBase64DataUri_eq (bytes : Uint8Array) (mime : option string) :
  arrayBufferToBase64DataUri btoa bytes mime
  = Some ("data:"
          ++ match mime with
             | Some m => m
             | None => "application/octet-stream"
             end
          ++ ";base64," ++ btoa (fromCharCode (map byteVal bytes)))%string.
Proof.
  unfold arrayBufferToBase64DataUri.
  rewrite binaryLoop_whole by (try lia; unfold byteLength; lia).
  cbn [Z.to_nat skipn append]. reflexivity.
Qed.

(** The chunks are put together again: whatever the length of the
    buffer, the loop never runs out and the data URI holds [btoa] of
    the whole binary string, after the given mime type or
    application/octet-stream. *)
Theorem arrayBufferToBase64DataUri_whole (bytes : Uint8Array) (mime : option string) :
  arrayBufferToBase64DataUri btoa bytes mime
  = Some ("data:"
          ++ match mime with
             | Some m => m
             | None => "application/octet-stream"
             end
          ++ ";base64," ++ btoa (fromCharCode (map byteVal bytes)))%string.
Proof.
  unfold arrayBufferToBase64DataUri.
  assert (Hfuel : Z.max 0 (byteLength bytes - 0)
                  < Z.of_nat (S (List.length bytes)))
    by (unfold byteLength; lia).
  rewrite (binaryLoop_whole _ bytes 0 "" (Z.le_refl 0) Hfuel).
  cbn [Z.to_nat skipn append]. reflexivity.
Qed.

(** Round trip: when [atob] undoes [btoa] on the binary string of the
    buffer and the mime type has no comma, decoding the data URI gives
    the buffer back. *)
Theorem data_uri_round_trip (bytes : Uint8Array) (mime uri : string) :
  noComma mime ->
  atob (btoa (fromCharCode (map byteVal bytes)))
  = Some (fromCharCode (map byteVal bytes)) ->
  arrayBufferToBase64DataUri btoa bytes (Some mime) = Some uri ->
  uint8ArrayFromBase64 atob invalidCharacterMessage uri = Ok bytes.
Proof.
  intros Hmime Hinv Huri. rewrite arrayBufferToBase64DataUri_eq in Huri.
  assert (E : uri = (("data:" ++ mime ++ ";base64") ++ ","
                     ++ btoa (fromCharCode (map byteVal bytes)))%string).
  { injection Huri as <-. rewrite !append_assoc. reflexivity. }
  subst uri. clear Huri.
  rewrite uint8ArrayFromBase64_payload.
  rewrite payloadOf_data_uri.
  - rewrite Hinv, list_ascii_of_fromCharCode. reflexivity.
  - apply (noComma_append "data:"); [reflexivity|].
    apply noComma_append; [assumption|reflexivity].
Qed.

(** What [inspectFromBase64] hands back: the size is the number of
    decoded characters, and the mime type goes with the format:
    image/png or image/jpeg with both dimensions, or null for unknown
    with null dimensions. *)
Theorem inspectFromBase64_result (base64 : string) (a : AssetInfo) :
  inspectFromBase64 atob rangeErrorMessage invalidCharacterMessage base64
  = Ok a ->
  (exists bin, atob (payloadOf base64) = Some bin /\ a_size a = jsLength bin)
  /\ ((a_format a = png /\ a_mime a = Some "image/png"%string
       /\ a_width a <> None /\ a_height a <> None)
      \/ (a_format a = jpeg /\ a_mime a = Some "image/jpeg"%string
          /\ a_width a <> None /\ a_height a <> None)
      \/ (a_format a = unknown /\ a_mime a = None
          /\ a_width a = None /\ a_height a = None)).
Proof.
  unfold inspectFromBase64. rewrite uint8ArrayFromBase64_payload.
  destruct (atob (payloadOf base64)) as [bin|] eqn:Hbin; [|discriminate].
  cbn [obind].
  destruct (inspectImageBuffer (bytesOfBinary bin)) as [r| |] eqn:Hr;
    cbn [ofCompletion obind]; [|destruct e; discriminate|discriminate].
  intros H. inversion H; subst a. clear H. cbn.
  pose proof (inspect_size _ _ Hr) as Hsize.
  pose proof (inspect_dimensions _ _ Hr) as Hdim.
  split.
  - exists bin. split; [reflexivity|]. rewrite Hsize.
    unfold byteLength, bytesOfBinary, jsLength. rewrite length_map.
    clear. induction bin as [|c bin IH]; cbn; [reflexivity|lia].
  - destruct Hdim as [(Hf & Hw & Hh)|[(Hf & w & h & Hw & Hh & _)
                                     |(Hf & w & h & Hw & Hh & _)]];
      rewrite Hf, Hw, Hh.
    + right. right. repeat split.
    + left. repeat split; discriminate.
    + right. left. repeat split; discriminate.
Qed.

End HostProperties.

(** ** workers/entry.js *)

Section WorkerProperties.

Variable number : Type.
Variable numberTruthy : number -> bool.
Variable atob : string -> option string.
Variable rangeErrorMessage : string.
Variable invalidCharacterMessage : string.
Variable validURL : string -> bool.
Variable fetch : string -> HostError + FetchResponse.
Variable timestamp : number.
Variable requestDurationMs : number.

Lemma ofCompletion_inspect (bytes : Uint8Array) :
  (exists r, inspectImageBuffer bytes = Normal r
             /\ ofCompletion rangeErrorMessage (inspectImageBuffer bytes) = Ok r)
  \/ (inspectImageBuffer bytes = Throw RangeError
      /\ ofCompletion rangeErrorMessage (inspectImageBuffer bytes)
         = Raise (ThrownError "RangeError" rangeErrorMessage)).
Proof.
  pose proof (inspect_terminates bytes) as Hterm. unfold terminates in Hterm.
  destruct (inspectImageBuffer bytes) as [r|[]|]; cbn [ofCompletion].
  - left. exists r. auto.
  - right. auto.
  - contradiction.
Qed.

(** What [inspectFromBase64] can do: return, or raise the error of
    [atob] or the [RangeError] of the parser. *)
Lemma inspectFromBase64_cases (base64 : string) :
  (exists a, inspectFromBase64 atob rangeErrorMessage invalidCharacterMessage
                               base64 = Ok a)
  \/ (exists name message,
         inspectFromBase64 atob rangeErrorMessage invalidCharacterMessage base64
         = Raise (ThrownError name message)).
Proof.
  unfold inspectFromBase64, uint8ArrayFromBase64.
  destruct (atob _) as [bin|]; cbn [obind]; [|right; eauto].
  destruct (ofCompletion_inspect (bytesOfBinary bin)) as [(r & _ & ->)|(_ & ->)];
    cbn [obind]; [left|right]; eauto.
Qed.

(** What [inspectFromUrl] can do: return, or raise an error object or a
    literal with status 400. *)
Lemma inspectFromUrl_cases (url : string) :
  (exists a, inspectFromUrl rangeErrorMessage validURL fetch url = Ok a)
  \/ (exists name message,
         inspectFromUrl rangeErrorMessage validURL fetch url
         = Raise (ThrownError name message))
  \/ (exists message,
         message <> ""%string
         /\ inspectFromUrl rangeErrorMessage validURL fetch url
            = Raise (ThrownLiteral 400 message)).
Proof.
  unfold inspectFromUrl.
  destruct (validURL url); cbn [negb];
    [|right; right; eexists; split; [|reflexivity]; discriminate].
  destruct (fetch url) as [e|resp]; [right; left; eauto|].
  destruct (resp_ok resp); cbn [negb];
    [|right; right; eexists; split; [|reflexivity]; discriminate].
  destruct (resp_arrayBuffer resp) as [e|buffer]; [right; left; eauto|].
  destruct (ofCompletion_inspect buffer) as [(r & _ & ->)|(_ & ->)];
    cbn [obind]; [left|right; left]; eauto.
Qed.

Lemma respondToInspection_cases (result : outcome AssetInfo) :
  ((exists a, result = Ok a)
   \/ (exists name message, result = Raise (ThrownError name message))
   \/ (exists message, message <> ""%string
                       /\ result = Raise (ThrownLiteral 400 message))) ->
  exists resp,
    respondToInspection number result = Ok resp
    /\ (res_status resp = 200 \/ res_status resp = 400)
    /\ (bodyOk (res_body resp) = true <-> res_status resp = 200).
Proof.
  intros [(a & ->)|[(name & message & ->)|(message & _ & ->)]];
    cbn [respondToInspection statusOf]; eexists; (split; [reflexivity|]);
    cbn; intuition discriminate.
Qed.

Lemma inspectImageAssetBranch_cases (params : option (JSON number)) :
  exists resp,
    inspectImageAssetBranch number numberTruthy atob rangeErrorMessage
                            invalidCharacterMessage validURL fetch params
    = Ok resp
    /\ (res_status resp = 200 \/ res_status resp = 400)
    /\ (bodyOk (res_body resp) = true <-> res_status resp = 200).
Proof.
  unfold inspectImageAssetBranch.
  destruct (truthy number numberTruthy params); cbn [negb];
    [|eexists; split; [reflexivity|]; cbn; intuition discriminate].
  destruct (asString number (getProp number params "url")) as [url|].
  - apply respondToInspection_cases. apply inspectFromUrl_cases.
  - destruct (asString number (getProp number params "base64")) as [b64|].
    + apply respondToInspection_cases.
      destruct (inspectFromBase64_cases b64) as [H|H]; [left|right; left];
        assumption.
    + eexists; split; [reflexivity|]; cbn; intuition discriminate.
Qed.

(** The handler answers every request, with status 200, 400 or 405,
    and the body says [ok: true] exactly when the status is 200: what
    the parser or the host throws during an inspection becomes a 400
    response. *)
Theorem handlerFetch_always_responds (request : Request number)
        (env : option (list string)) :
  exists resp,
    handlerFetch number numberTruthy atob rangeErrorMessage
                 invalidCharacterMessage validURL fetch
                 timestamp requestDurationMs request env
    = Ok resp
    /\ (res_status resp = 200 \/ res_status resp = 400 \/ res_status resp = 405)
    /\ (bodyOk (res_body resp) = true <-> res_status resp = 200).
Proof.
  unfold handlerFetch, handlerBody.
  destruct (String.eqb (req_method request) "POST"); cbn [negb];
    [|eexists; split; [reflexivity|]; cbn; intuition discriminate].
  unfold parseJsonRequest.
  destruct (includes _ "application/json"); cbn [negb];
    [|eexists; split; [reflexivity|]; cbn; intuition discriminate].
  destruct (req_json request) as [body|];
    [|eexists; split; [reflexivity|]; cbn; intuition discriminate].
  destruct (if truthy number numberTruthy _ then asString number _ else None)
    as [m|];
    [|eexists; split; [reflexivity|]; cbn; intuition discriminate].
  destruct (String.eqb m "inspect_image_asset").
  - destruct (inspectImageAssetBranch_cases
                (if truthy number numberTruthy (Some body)
                 then getProp number (Some body) "params" else Some body))
      as (resp & -> & Hst & Hok).
    exists resp. intuition.
  - destruct (String.eqb m "get_system_status");
      eexists; (split; [reflexivity|]); cbn; intuition discriminate.
Qed.

Lemma handlerFetch_route (request : Request number) (env : option (list string))
      (params : option (JSON number)) :
  inspectRequest number numberTruthy request params ->
  handlerFetch number numberTruthy atob rangeErrorMessage
               invalidCharacterMessage validURL fetch
               timestamp requestDurationMs request env
  = inspectImageAssetBranch number numberTruthy atob rangeErrorMessage
                            invalidCharacterMessage validURL fetch params.
Proof.
  intros (Hpost & (ct & Hct & Hjson) & body & Hbody & Htruthy & Hmethod & Hparams).
  unfold handlerFetch, handlerBody, parseJsonRequest.
  rewrite Hpost, Hct, Hbody. cbn [String.eqb Ascii.eqb Bool.eqb negb].
  assert (Hct' : (if String.eqb ct "" then ""%string else ct) = ct)
    by (destruct (String.eqb_spec ct "") as [->|]; reflexivity).
  rewrite Hct', Hjson. cbn [negb].
  rewrite Htruthy, Hmethod, Hparams. cbn.
  destruct (inspectImageAssetBranch_cases params) as (resp & -> & _).
  reflexivity.
Qed.

(** An inspection request with a base64 string and no url string, when
    the text decodes and the parser returns: the answer is 200 with the
    parser's format and dimensions, the number of decoded bytes as size
    and the mime type of the format. *)
Theorem handlerFetch_base64_ok (request : Request number)
        (env : option (list string)) (params : option (JSON number))
        (base64 bin : string) (r : InspectionResult) :
  inspectRequest number numberTruthy request params ->
  truthy number numberTruthy params = true ->
  asString number (getProp number params "url") = None ->
  asString number (getProp number params "base64") = Some base64 ->
  atob (payloadOf base64) = Some bin ->
  inspectImageBuffer (bytesOfBinary bin) = Normal r ->
  handlerFetch number numberTruthy atob rangeErrorMessage
               invalidCharacterMessage validURL fetch
               timestamp requestDurationMs request env
  = Ok (jsonResponse
          (InspectBody (mkAsset (format r) (width r) (height r)
                                (jsLength bin) (mimeOfFormat (format r))))
          200).
Proof.
  intros Hreq Htruthy Hurl Hb64 Hbin Hr.
  rewrite (handlerFetch_route request env params Hreq).
  unfold inspectImageAssetBranch. rewrite Htruthy, Hurl, Hb64. cbn [negb].
  unfold inspectFromBase64. rewrite uint8ArrayFromBase64_payload, Hbin.
  cbn [obind]. rewrite Hr. cbn [ofCompletion obind respondToInspection].
  rewrite (inspect_size _ _ Hr).
  replace (byteLength (bytesOfBinary bin)) with (jsLength bin).
  - destruct (format r); reflexivity.
  - unfold byteLength, bytesOfBinary, jsLength. rewrite length_map.
    clear. induction bin as [|c bin IH]; cbn; [reflexivity|lia].
Qed.

(** The same request when the parser raises its [RangeError] on the
    decoded bytes: the answer is 400 with the message of the error (its
    name when the message is empty), not an unknown format. *)
Theorem handlerFetch_base64_parser_error (request : Request number)
        (env : option (list string)) (params : option (JSON number))
        (base64 bin : string) :
  inspectRequest number numberTruthy request params ->
  truthy number numberTruthy params = true ->
  asString number (getProp number params "url") = None ->
  asString number (getProp number params "base64") = Some base64 ->
  atob (payloadOf base64) = Some bin ->
  inspectImageBuffer (bytesOfBinary bin) = Throw RangeError ->
  handlerFetch number numberTruthy atob rangeErrorMessage
               invalidCharacterMessage validURL fetch
               timestamp requestDurationMs request env
  = Ok (jsonResponse
          (ErrorBody (if String.eqb rangeErrorMessage "" then "RangeError"%string
                      else rangeErrorMessage))
          400).
Proof.
  intros Hreq Htruthy Hurl Hb64 Hbin Hr.
  rewrite (handlerFetch_route request env params Hreq).
  unfold inspectImageAssetBranch. rewrite Htruthy, Hurl, Hb64. cbn [negb].
  unfold inspectFromBase64. rewrite uint8ArrayFromBase64_payload, Hbin.
  cbn [obind]. rewrite Hr.
  cbn [ofCompletion obind respondToInspection statusOf messageOf stringOfThrown].
  destruct (String.eqb rangeErrorMessage ""); reflexivity.
Qed.

(** [inspectFromUrl] reports the length of the fetched body as size and
    takes the mime type from the format; the [content-type] header of
    the response counts for an unknown format only, and an empty or
    missing header is null. *)
Theorem inspectFromUrl_result (url : string) (a : AssetInfo) :
  inspectFromUrl rangeErrorMessage validURL fetch url = Ok a ->
  validURL url = true
  /\ exists resp buffer r,
       fetch url = inr resp /\ resp_ok resp = true
       /\ resp_arrayBuffer resp = inr buffer
       /\ inspectImageBuffer buffer = Normal r
       /\ a_format a = format r /\ a_width a = width r
       /\ a_height a = height r /\ a_size a = byteLength buffer
       /\ a_mime a = match format r with
                     | unknown =>
                         match resp_contentType resp with
                         | Some h => if String.eqb h "" then None else Some h
                         | None => None
                         end
                     | f => mimeOfFormat f
                     end.
Proof.
  unfold inspectFromUrl.
  destruct (validURL url); cbn [negb]; [|discriminate].
  destruct (fetch url) as [e|resp]; [discriminate|].
  destruct (resp_ok resp) eqn:Hok; cbn [negb]; [|discriminate].
  destruct (resp_arrayBuffer resp) as [e|buffer] eqn:Hbuf; [discriminate|].
  destruct (ofCompletion_inspect buffer) as [(r & Hr & ->)|(_ & ->)];
    cbn [obind]; [|discriminate].
  intros H. inversion H; subst a; clear H. split; [reflexivity|].
  exists resp, buffer, r. cbn.
  repeat split; try assumption; destruct (format r); reflexivity.
Qed.

(** When [params.url] is a string the handler inspects the url and
    never looks at [params.base64]: two inspection requests with the
    same url get the same answer, whatever else they carry. *)
Theorem handlerFetch_url_first (request1 request2 : Request number)
        (env1 env2 : option (list string))
        (params1 params2 : option (JSON number)) (url : string) :
  inspectRequest number numberTruthy request1 params1 ->
  inspectRequest number numberTruthy request2 params2 ->
  truthy number numberTruthy params1 = true ->
  truthy number numberTruthy params2 = true ->
  asString number (getProp number params1 "url") = Some url ->
  asString number (getProp number params2 "url") = Some url ->
  handlerFetch number numberTruthy atob rangeErrorMessage
               invalidCharacterMessage validURL fetch
               timestamp requestDurationMs request1 env1
  = handlerFetch number numberTruthy atob rangeErrorMessage
                 invalidCharacterMessage validURL fetch
                 timestamp requestDurationMs request2 env2.
Proof.
  intros Hreq1 Hreq2 Ht1 Ht2 Hurl1 Hurl2.
  rewrite (handlerFetch_route request1 env1 params1 Hreq1).
  rewrite (handlerFetch_route request2 env2 params2 Hreq2).
  unfold inspectImageAssetBranch.
  rewrite Ht1, Ht2, Hurl1, Hurl2. reflexivity.
Qed.

End WorkerProperties.

(** ** index.js: inspectImageAsset *)

Section LibraryProperties.

Variable number : Type.
Variable numberTruthy : number -> bool.
Variable atob : string -> option string.
Variable btoa : string -> string.
Variable invalidCharacterMessage : string.
Variable fetchAvailable : bool.
Variable fetch : string -> HostError + FetchResponse.

(** [inspectImageAsset] throws for one reason only, parameters without
    a [url] or [base64] string; otherwise it returns a result, and when
    [params.base64] is a string that result is the successful one with
    the text unchanged and its computed size, whatever [params.url] is
    and without any fetch. *)
Theorem inspectImageAsset_outcomes (params : option (JSON number)) :
  (truthy number numberTruthy params = false
   \/ (asString number (getProp number params "url") = None
       /\ asString number (getProp number params "base64") = None) ->
   exists message,
     inspectImageAsset number numberTruthy btoa fetchAvailable fetch params
     = Raise (ThrownError "Error" message))
  /\ (truthy number numberTruthy params = true ->
      forall b64,
        asString number (getProp number params "base64") = Some b64 ->
        inspectImageAsset number numberTruthy btoa fetchAvailable fetch params
        = Ok (Success (FromBase64 b64 (base64ByteSize b64))))
  /\ (truthy number numberTruthy params = true ->
      forall url,
        asString number (getProp number params "url") = Some url ->
        exists result,
          inspectImageAsset number numberTruthy btoa fetchAvailable fetch params
          = Ok result).
Proof.
  unfold inspectImageAsset. split; [|split].
  - intros [Hf|(Hu & Hb)].
    + rewrite Hf. cbn. eauto.
    + rewrite Hu, Hb. rewrite orb_true_r. eauto.
  - intros Ht b64 Hb. rewrite Ht, Hb. cbn [negb orb andb].
    rewrite andb_false_r. reflexivity.
  - intros Ht url Hu. rewrite Ht, Hu. cbn [negb orb andb].
    destruct (asString number (getProp number params "base64")) as [b64|];
      [eauto|].
    destruct fetchAvailable; cbn [negb]; [|eauto].
    destruct (fetch url) as [e|resp]; [eauto|].
    destruct (resp_ok resp); cbn [negb]; [|eauto].
    destruct (resp_arrayBuffer resp) as [e|buf]; [eauto|].
    rewrite arrayBufferToBase64DataUri_eq. eauto.
Qed.

(** The url branch and the parser's decoder fit together: for a fetched
    body whose content type has no comma, on a host where [atob] undoes
    [btoa] on it, [inspectImageAsset] succeeds with the length of the
    body as size and a data URI that [uint8ArrayFromBase64] decodes back
    to the body. *)
Theorem inspectImageAsset_url_round_trip (params : option (JSON number))
        (url : string) (resp : FetchResponse) (body : Uint8Array) :
  truthy number numberTruthy params = true ->
  asString number (getProp number params "base64") = None ->
  asString number (getProp number params "url") = Some url ->
  fetchAvailable = true ->
  fetch url = inr resp -> resp_ok resp = true ->
  resp_arrayBuffer resp = inr body ->
  (forall c, resp_contentType resp = Some c -> noComma c) ->
  atob (btoa (fromCharCode (map byteVal body)))
  = Some (fromCharCode (map byteVal body)) ->
  exists uri mime,
    inspectImageAsset number numberTruthy btoa fetchAvailable fetch params
    = Ok (Success (FromUrl url uri (byteLength body) mime))
    /\ uint8ArrayFromBase64 atob invalidCharacterMessage uri = Ok body.
Proof.
  intros Ht Hb Hu Hfa Hfetch Hok Hbody Hct Hinv.
  unfold inspectImageAsset.
  rewrite Ht, Hb, Hu, Hfa, Hfetch, Hok, Hbody. cbn [negb orb andb].
  rewrite arrayBufferToBase64DataUri_eq.
  eexists _, _. split; [reflexivity|].
  set (mime := match match resp_contentType resp with
                     | Some h => if String.eqb h "" then None else Some h
                     | None => None
                     end with
               | Some c => c
               | None => "application/octet-stream"%string
               end).
  assert (Hmime : noComma mime).
  { unfold mime. destruct (resp_contentType resp) as [h|]; [|reflexivity].
    destruct (String.eqb h ""); [reflexivity|]. apply Hct. reflexivity. }
  rewrite uint8ArrayFromBase64_payload.
  replace ("data:" ++ mime ++ ";base64," ++ btoa (fromCharCode (map byteVal body)))%string
    with (("data:" ++ mime ++ ";base64") ++ ","
          ++ btoa (fromCharCode (map byteVal body)))%string
    by (rewrite !append_assoc; reflexivity).
  rewrite payloadOf_data_uri.
  - rewrite Hinv, list_ascii_of_fromCharCode. reflexivity.
  - apply (noComma_append "data:"); [reflexivity|].
    apply noComma_append; [assumption|reflexivity].
Qed.

End LibraryProperties.


(** ** The properties above on sample requests *)

Lemma uint8ArrayFromBase64_data_uri_witness :
  uint8ArrayFromBase64 sampleAtob "" "data:text/plain;base64,SGk="
  = uint8ArrayFromBase64 sampleAtob "" "SGk=".
Proof.
  refine (proj1 (uint8ArrayFromBase64_data_uri sampleAtob ""
                   "data:text/plain;base64" "SGk=" _ _));
    reflexivity.
Defined.

Lemma data_uri_round_trip_witness :
  uint8ArrayFromBase64 sampleAtob "" "data:text/plain;base64,SGk="
  = Ok [x48; x69]%byte.
Proof.
  refine (data_uri_round_trip sampleAtob sampleBtoa "" [x48; x69]%byte
            "text/plain" "data:text/plain;base64,SGk=" _ _ _);
    reflexivity.
Defined.

Lemma inspectFromBase64_result_witness :
  exists bin, sampleAtob (payloadOf "SGk=") = Some bin /\ 2 = jsLength bin.
Proof.
  exact (proj1 (inspectFromBase64_result sampleAtob "" "" "SGk="
                  (mkAsset unknown None None 2 None) eq_refl)).
Defined.

Lemma handlerFetch_base64_ok_witness :
  handlerFetch Z sampleTruthy sampleAtob "Offset is outside the bounds" ""
               (fun _ => true) sampleFetch 0 0 (base64Request "SGk=") None
  = Ok (jsonResponse (InspectBody (mkAsset unknown None None 2 None)) 200).
Proof.
  refine (handlerFetch_base64_ok Z sampleTruthy sampleAtob _ _ _ _ 0 0
            (base64Request "SGk=") None
            (Some (JObject [("base64"%string, JString "SGk=")]))
            "SGk=" "Hi" (mkInspection unknown None None 2) _ _ _ _ _ _).
  - split; [reflexivity|]. split.
    + exists "application/json; charset=utf-8"%string. split; reflexivity.
    + eexists. repeat split; reflexivity.
  - reflexivity.
  - reflexivity.
  - reflexivity.
  - reflexivity.
  - reflexivity.
Defined.

Lemma handlerFetch_base64_parser_error_witness :
  handlerFetch Z sampleTruthy sampleAtob "Offset is outside the bounds" ""
               (fun _ => true) sampleFetch 0 0 (base64Request "/9gA/w==") None
  = Ok (jsonResponse (ErrorBody "Offset is outside the bounds") 400).
Proof.
  refine (handlerFetch_base64_parser_error Z sampleTruthy sampleAtob
            "Offset is outside the bounds" _ _ _ 0 0
            (base64Request "/9gA/w==") None
            (Some (JObject [("base64"%string, JString "/9gA/w==")]))
            "/9gA/w==" (fromCharCode [255; 216; 0; 255]) _ _ _ _ _ _).
  - split; [reflexivity|]. split.
    + exists "application/json; charset=utf-8"%string. split; reflexivity.
    + eexists. repeat split; reflexivity.
  - reflexivity.
  - reflexivity.
  - reflexivity.
  - reflexivity.
  - reflexivity.
Defined.

Lemma inspectFromUrl_result_witness :
  exists resp buffer r,
    sampleFetch "https://example.com/a.png" = inr resp /\ resp_ok resp = true
    /\ resp_arrayBuffer resp = inr buffer
    /\ inspectImageBuffer buffer = Normal r
    /\ png = format r /\ Some 256 = width r
    /\ Some 200 = height r /\ 24 = byteLength buffer
    /\ Some "image/png"%string
       = match format r with
         | unknown =>
             match resp_contentType resp with
             | Some h => if String.eqb h "" then None else Some h
             | None => None
             end
         | f => mimeOfFormat f
         end.
Proof.
  exact (proj2 (inspectFromUrl_result "" (fun _ => true) sampleFetch
                  "https://example.com/a.png"
                  (mkAsset png (Some 256) (Some 200) 24 (Some "image/png"%string))
                  eq_refl)).
Defined.

Lemma handlerFetch_url_first_witness :
  handlerFetch Z sampleTruthy sampleAtob "" "" (fun _ => true) sampleFetch 0 0
               (urlRequest "https://example.com/a.png" "SGk=") None
  = handlerFetch Z sampleTruthy sampleAtob "" "" (fun _ => true) sampleFetch 0 0
                 (urlRequest "https://example.com/a.png" "/9gA/w==")
                 (Some ["KV"%string]).
Proof.
  refine (handlerFetch_url_first Z sampleTruthy sampleAtob "" "" (fun _ => true)
            sampleFetch 0 0
            (urlRequest "https://example.com/a.png" "SGk=")
            (urlRequest "https://example.com/a.png" "/9gA/w==")
            None (Some ["KV"%string])
            (Some (JObject [("url"%string, JString "https://example.com/a.png");
                            ("base64"%string, JString "SGk=")]))
            (Some (JObject [("url"%string, JString "https://example.com/a.png");
                            ("base64"%string, JString "/9gA/w==")]))
            "https://example.com/a.png" _ _ _ _ _ _).
  - split; [reflexivity|]. split.
    + exists "application/json"%string. split; reflexivity.
    + eexists. repeat split; reflexivity.
  - split; [reflexivity|]. split.
    + exists "application/json"%string. split; reflexivity.
    + eexists. repeat split; reflexivity.
  - reflexivity.
  - reflexivity.
  - reflexivity.
  - reflexivity.
Defined.

Lemma inspectImageAsset_url_round_trip_witness :
  exists uri mime,
    inspectImageAsset Z sampleTruthy sampleBtoa true sampleFetch
      (Some (JObject [("url"%string, JString "https://example.com/hi.txt")]))
    = Ok (Success (FromUrl "https://example.com/hi.txt" uri 2 mime))
    /\ uint8ArrayFromBase64 sampleAtob "" uri = Ok [x48; x69]%byte.
Proof.
  refine (inspectImageAsset_url_round_trip Z sampleTruthy sampleAtob sampleBtoa
            "" true sampleFetch
            (Some (JObject [("url"%string, JString "https://example.com/hi.txt")]))
            "https://example.com/hi.txt"
            (mkFetchResponse true 200 "OK" (Some "text/plain"%string)
                             (inr [x48; x69]%byte))
            [x48; x69]%byte _ _ _ _ _ _ _ _ _); try reflexivity.
  intros c Hc. injection Hc as <-. reflexivity.
Defined.
